(** * VOO/VTI spread monitor: a shallow embedding and its properties

    The development follows [voo_vti_monitor.py] (the scheduled monitor with
    its Flask view) and [voo_vti_spread.py] (the one-shot spread script).

    Modelling conventions.
    - Prices are exact rationals [Q]: binary64 rounding is not modelled.
      Values that numpy arithmetic may turn into [inf] or [nan] live in [xq].
      A Python [float / float] raises [ZeroDivisionError] on a zero divisor,
      while numpy's element-wise division yields [inf]/[nan]; both are kept.
    - A provider frame is reduced to its index and its [Close] column: a list
      of (timestamp, close price) rows.  Missing cells only arise from the
      outer join of [pd.concat(..., axis=1)], and [dropna] removes them.
    - Timestamps are integers (seconds); [strftime] formatting is left out.
    - Python exceptions are values of [exn]; code that may raise returns a
      [result]. *)

From Stdlib Require Import ZArith QArith Qabs List String Bool Lia Lqa.
From Stdlib Require Import Sorting.Sorted Sorting.Permutation.
Import ListNotations.

Open Scope string_scope.
Open Scope Z_scope.
Open Scope Q_scope.

(** ** Numbers *)

(** numpy float64 values, up to rounding and the sign of zero. *)
Inductive xq : Type :=
| Fin (q : Q)
| PInf
| NInf
| NaN.

Definition xneg (x : xq) : xq :=
  match x with
  | Fin q => Fin (- q)
  | PInf => NInf
  | NInf => PInf
  | NaN => NaN
  end.

(** An infinity carrying the sign of [q]; [nan] when [q] is zero. *)
Definition signed_inf (q : Q) : xq :=
  match Qnum q with
  | Z0 => NaN
  | Zpos _ => PInf
  | Zneg _ => NInf
  end.

Definition xmul (x y : xq) : xq :=
  match x, y with
  | NaN, _ | _, NaN => NaN
  | Fin a, Fin b => Fin (a * b)
  | Fin a, PInf | PInf, Fin a => signed_inf a
  | Fin a, NInf | NInf, Fin a => xneg (signed_inf a)
  | PInf, PInf | NInf, NInf => PInf
  | PInf, NInf | NInf, PInf => NInf
  end.

Definition xsub (x y : xq) : xq :=
  match x, y with
  | NaN, _ | _, NaN => NaN
  | Fin a, Fin b => Fin (a - b)
  | Fin _, PInf => NInf
  | Fin _, NInf => PInf
  | PInf, PInf | NInf, NInf => NaN
  | PInf, _ => PInf
  | NInf, _ => NInf
  end.

Definition Qis_zero (q : Q) : bool :=
  match Qnum q with
  | Z0 => true
  | _ => false
  end.

(** numpy true division: no exception, a zero divisor gives [inf] or [nan]. *)
Definition xdiv (x y : xq) : xq :=
  match x, y with
  | NaN, _ | _, NaN => NaN
  | Fin a, Fin b => if Qis_zero b then signed_inf a else Fin (a / b)
  | Fin _, _ => Fin 0
  | PInf, Fin b => match Qnum b with Zneg _ => NInf | _ => PInf end
  | NInf, Fin b => match Qnum b with Zneg _ => PInf | _ => NInf end
  | _, _ => NaN
  end.

Definition xabs (x : xq) : xq :=
  match x with
  | Fin q => Fin (Qabs q)
  | PInf | NInf => PInf
  | NaN => NaN
  end.

(** [x >= q], [x <= q] and [x > q] against a finite bound; every comparison
    with [nan] is false. *)
Definition xge (x : xq) (q : Q) : bool :=
  match x with
  | Fin p => Qle_bool q p
  | PInf => true
  | NInf | NaN => false
  end.

Definition xle (x : xq) (q : Q) : bool :=
  match x with
  | Fin p => Qle_bool p q
  | NInf => true
  | PInf | NaN => false
  end.

Definition xgt (x : xq) (q : Q) : bool :=
  match x with
  | Fin p => negb (Qle_bool p q)
  | PInf => true
  | NInf | NaN => false
  end.

(** ** Exceptions *)

Inductive exn : Type :=
| ZeroDivisionError
| ValueError
| IndexError
| OSError
| ProviderError.

Inductive result (A : Type) : Type :=
| Ok (a : A)
| Raise (e : exn).

Arguments Ok {A} a.
Arguments Raise {A} e.

Definition bind {A B : Type} (r : result A) (k : A -> result B) : result B :=
  match r with
  | Ok a => k a
  | Raise e => Raise e
  end.

Notation "x <- r ;; k" := (bind r (fun x => k))
  (at level 61, r at next level, right associativity).

(** Python's [float(x) / float(y)]. *)
Definition py_div (x y : Q) : result Q :=
  if Qis_zero y then Raise ZeroDivisionError else Ok (x / y).

(** ** Frames *)

Definition Timestamp : Type := Z.

(** One bar of a provider frame: its index entry and its [Close] cell. *)
Definition PricePoint : Type := (Timestamp * Q)%type.

Definition DataFrame : Type := list PricePoint.

(** [df.empty] *)
Definition empty {A : Type} (df : list A) : bool :=
  match df with
  | [] => true
  | _ :: _ => false
  end.

(** [df.sort_index()]: stable insertion by index. *)
Fixpoint insert_by_index (p : PricePoint) (df : DataFrame) : DataFrame :=
  match df with
  | [] => [p]
  | p' :: rest =>
      if (fst p <=? fst p')%Z then p :: p' :: rest
      else p' :: insert_by_index p rest
  end.

Fixpoint sort_index (df : DataFrame) : DataFrame :=
  match df with
  | [] => []
  | p :: rest => insert_by_index p (sort_index rest)
  end.

(** [df["Close"]]: the frame is already reduced to that column. *)
Definition Close (df : DataFrame) : DataFrame := df.

(** [df.index] *)
Definition index_of (df : DataFrame) : list Timestamp := map fst df.

(** Label lookup in a series. *)
Fixpoint cell (t : Timestamp) (s : DataFrame) : option Q :=
  match s with
  | [] => None
  | (t', v) :: rest => if (t =? t')%Z then Some v else cell t rest
  end.

(** The union of two indexes, as the outer join builds it: a merge that keeps
    one copy of a label present on both sides.  It gives the joined index in
    pandas' order for chronological indexes without repeated labels, which
    is what the monitor passes after [sort_index]; for other indexes only
    the set of labels is meant. *)
Fixpoint union_index (ia : list Timestamp) : list Timestamp -> list Timestamp :=
  fix merge_with (ib : list Timestamp) : list Timestamp :=
    match ia, ib with
    | [], _ => ib
    | _, [] => ia
    | ta :: ia', tb :: ib' =>
        match (ta ?= tb)%Z with
        | Lt => ta :: union_index ia' ib
        | Eq => ta :: union_index ia' ib'
        | Gt => tb :: merge_with ib'
        end
    end.

(** A row of the joined two-column frame; [None] is a missing cell. *)
Definition JoinedRow : Type := (Timestamp * (option Q * option Q))%type.

(** [pd.concat([s_a, s_b], axis=1)] *)
Definition concat (s_a s_b : DataFrame) : list JoinedRow :=
  map (fun t => (t, (cell t s_a, cell t s_b)))
      (union_index (index_of s_a) (index_of s_b)).

(** An aligned row: both closes present. *)
Record Aligned : Type := mkAligned {
  al_time : Timestamp;
  al_a : Q;
  al_b : Q
}.

(** [.dropna()]: keep the rows without a missing cell. *)
Fixpoint dropna (rows : list JoinedRow) : list Aligned :=
  match rows with
  | [] => []
  | (t, (Some a, Some b)) :: rest => mkAligned t a b :: dropna rest
  | _ :: rest => dropna rest
  end.

(** [pd.concat([s_a, s_b], axis=1).dropna()] *)
Definition combine (s_a s_b : DataFrame) : list Aligned :=
  dropna (concat s_a s_b).

(** [df.tail(n)] *)
Definition tail {A : Type} (n : nat) (l : list A) : list A :=
  skipn (List.length l - n)%nat l.

(** [df.iloc[-1]] on a non-empty frame. *)
Definition iloc_last {A : Type} (l : list A) : result A :=
  match rev l with
  | [] => Raise IndexError
  | x :: _ => Ok x
  end.

(** [df.iloc[0]] on a non-empty frame. *)
Definition iloc_first {A : Type} (l : list A) : result A :=
  match l with
  | [] => Raise IndexError
  | x :: _ => Ok x
  end.

(** ** The upstream provider *)

(** What one [yf.download] call does: it returns a frame (possibly empty) or
    raises. *)
Inductive Download : Type :=
| Downloaded (df : DataFrame)
| DownloadRaised.

(** [yf.download(symbol, period=, interval=, auto_adjust=)] *)
Definition Provider : Type := string -> string -> string -> bool -> Download.

(** ** voo_vti_monitor.py *)

Module Monitor.

Record Config : Type := mkConfig {
  SYMBOL_A : string;
  SYMBOL_B : string;
  INTERVAL : string;
  FALLBACK_INTERVALS : list string;
  THRESHOLD_PCT : Q;
  PRE_WARNING_PCT : Q
}.

(** The shipped configuration.  The two thresholds are the decimal values
    of the source's literals 0.15 and 0.10, not the doubles nearest to
    them. *)
Definition CONFIG : Config :=
  {| SYMBOL_A := "VOO";
     SYMBOL_B := "VTI";
     INTERVAL := "1m";
     FALLBACK_INTERVALS := ["2m"; "5m"; "15m"];
     THRESHOLD_PCT := 15 # 100;
     PRE_WARNING_PCT := 10 # 100 |}.

(** *** Data fetch *)

Definition fetch_interval_safe (yf : Provider) (symbol interval : string)
  : DataFrame :=
  let period := if String.eqb interval "1m" then "6d" else "60d" in
  match yf symbol period interval false with
  | Downloaded df => if empty df then [] else sort_index df
  | DownloadRaised => []
  end.

(** The loop of [get_minute_data] over the intervals still to try, together
    with the intervals it has asked the provider for, in call order. *)
Fixpoint try_intervals (yf : Provider) (symbol : string) (ivs : list string)
  : list string * DataFrame :=
  match ivs with
  | [] => ([], [])
  | iv :: rest =>
      let df := fetch_interval_safe yf symbol iv in
      if negb (empty df) then ([iv], df)
      else let (asked, found) := try_intervals yf symbol rest in
           (iv :: asked, found)
  end.

Definition get_minute_data_calls (yf : Provider) (symbol primary_interval : string)
  (fallback_intervals : list string) : list string * DataFrame :=
  try_intervals yf symbol (primary_interval :: fallback_intervals).

Definition get_minute_data (yf : Provider) (symbol primary_interval : string)
  (fallback_intervals : list string) : DataFrame :=
  snd (get_minute_data_calls yf symbol primary_interval fallback_intervals).

(** *** Rows *)

(** A row of [combined] once the three computed columns are added. *)
Record Row : Type := mkRow {
  Datetime : Timestamp;
  col_a : Q;
  col_b : Q;
  B_scaled : Q;
  spread : Q;
  spread_pct : xq
}.

(** [float(combined.iloc[0][a_sym]) / float(combined.iloc[0][b_sym])] *)
Definition scale_factor_of (combined : list Aligned) : result Q :=
  first <- iloc_first combined ;;
  py_div (al_a first) (al_b first).

(** The three column assignments, row by row. *)
Definition add_columns (scale_factor : Q) (r : Aligned) : Row :=
  let b_scaled := al_b r * scale_factor in
  let sp := al_a r - b_scaled in
  {| Datetime := al_time r;
     col_a := al_a r;
     col_b := al_b r;
     B_scaled := b_scaled;
     spread := sp;
     spread_pct := xmul (xdiv (Fin sp) (Fin (al_a r))) (Fin 100) |}.

(** *** Actions *)

(** The [# Determine Action] chain on the latest row.  The third component
    tells whether the branch assigns [state["last_strong_time"]]. *)
Definition determine_action (cfg : Config) (pct : xq) : string * string * bool :=
  let a_sym := SYMBOL_A cfg in
  let b_sym := SYMBOL_B cfg in
  if xge pct (THRESHOLD_PCT cfg) then
    ("Strong Sell " ++ a_sym ++ " / Buy " ++ b_sym, "darkred", true)
  else if xge pct (PRE_WARNING_PCT cfg) then
    ("Approaching Sell " ++ a_sym ++ " / Buy " ++ b_sym, "orange", false)
  else if xle pct (- THRESHOLD_PCT cfg) then
    ("Strong Buy " ++ a_sym ++ " / Sell " ++ b_sym, "darkgreen", true)
  else if xle pct (- PRE_WARNING_PCT cfg) then
    ("Approaching Buy " ++ a_sym ++ " / Sell " ++ b_sym, "lightgreen", false)
  else
    ("Neutral", "yellow", false).

(** A table row: [r.to_dict()] with its ["action"] key. *)
Record RowDict : Type := mkRowDict {
  rd_row : Row;
  rd_action : string
}.

(** The body of the [# Compute row colors for table] loop. *)
Definition row_with_color (cfg : Config) (r : Row) : RowDict * string :=
  let a_sym := SYMBOL_A cfg in
  let b_sym := SYMBOL_B cfg in
  let pct_r := spread_pct r in
  let (color_r, action_r) :=
    if xge pct_r (THRESHOLD_PCT cfg) then
      ("darkred", "Strong Sell " ++ a_sym ++ " / Buy " ++ b_sym)
    else if xge pct_r (PRE_WARNING_PCT cfg) then
      ("orange", "Approaching Sell " ++ a_sym ++ " / Buy " ++ b_sym)
    else if xle pct_r (- THRESHOLD_PCT cfg) then
      ("darkgreen", "Strong Buy " ++ a_sym ++ " / Sell " ++ b_sym)
    else if xle pct_r (- PRE_WARNING_PCT cfg) then
      ("lightgreen", "Approaching Buy " ++ a_sym ++ " / Sell " ++ b_sym)
    else
      ("yellow", "Neutral") in
  ({| rd_row := r; rd_action := action_r |}, color_r).

(** The five bands, and what the chain writes for each: action text,
    colour, and whether the last strong time is stamped. *)
Inductive ActionTier : Type :=
| StrongSell
| ApproachingSell
| Neutral
| ApproachingBuy
| StrongBuy.

Definition render (cfg : Config) (tier : ActionTier) : string * string * bool :=
  let a_sym := SYMBOL_A cfg in
  let b_sym := SYMBOL_B cfg in
  match tier with
  | StrongSell => ("Strong Sell " ++ a_sym ++ " / Buy " ++ b_sym, "darkred", true)
  | ApproachingSell =>
      ("Approaching Sell " ++ a_sym ++ " / Buy " ++ b_sym, "orange", false)
  | Neutral => ("Neutral", "yellow", false)
  | ApproachingBuy =>
      ("Approaching Buy " ++ a_sym ++ " / Sell " ++ b_sym, "lightgreen", false)
  | StrongBuy => ("Strong Buy " ++ a_sym ++ " / Sell " ++ b_sym, "darkgreen", true)
  end.

(** [log_row] *)
Record LogRow : Type := mkLogRow {
  lr_row : Row;
  lr_action : string;
  lr_color : string
}.

(** *** Shared state *)

Definition Shares : Type := (Q * Q)%type.

Record State : Type := mkState {
  last_row : option LogRow;
  last_strong_time : option Timestamp;
  df_tail : list (RowDict * string);
  shares : Shares;
  market_msg : string
}.

Definition state0 : State :=
  {| last_row := None;
     last_strong_time := None;
     df_tail := [];
     shares := (0, 0);
     market_msg := "" |}.

(** What one cycle finds around it. *)
Record World : Type := mkWorld {
  yf : Provider;
  now : Timestamp;
  csv_writable : bool;
  vanguard_shares : Shares
}.

(** [read_vanguard_csv()]: the holdings file is an outside input. *)
Definition read_vanguard_csv (w : World) : Shares := vanguard_shares w.

(** The stores into [state] that a reader can tell apart.  The three
    assignments under [with lock:] are one store: [index] reads under the
    same lock. *)
Inductive Write : Type :=
| SetLastStrongTime (t : Timestamp)
| LockedUpdate (lr : LogRow) (rows : list (RowDict * string)) (sh : Shares).

Definition apply_write (st : State) (wr : Write) : State :=
  match wr with
  | SetLastStrongTime t =>
      {| last_row := last_row st;
         last_strong_time := Some t;
         df_tail := df_tail st;
         shares := shares st;
         market_msg := market_msg st |}
  | LockedUpdate lr rows sh =>
      {| last_row := Some lr;
         last_strong_time := last_strong_time st;
         df_tail := rows;
         shares := sh;
         market_msg := market_msg st |}
  end.

(** The two fetches of a cycle and the aligned frame built from them. *)
Definition fetch_a (cfg : Config) (w : World) : DataFrame :=
  get_minute_data (yf w) (SYMBOL_A cfg) (INTERVAL cfg) (FALLBACK_INTERVALS cfg).

Definition fetch_b (cfg : Config) (w : World) : DataFrame :=
  get_minute_data (yf w) (SYMBOL_B cfg) (INTERVAL cfg) (FALLBACK_INTERVALS cfg).

Definition window (cfg : Config) (w : World) : list Aligned :=
  combine (Close (fetch_a cfg w)) (Close (fetch_b cfg w)).

(** How a cycle ends. *)
Inductive Outcome : Type :=
| MissingData
| NoAlignedData
| CycleError (e : exn)
| Logged (lr : LogRow).

(** The second half of [compute_and_log], from [# Determine Action] to the
    locked update, on the truncated frame and its last row. *)
Definition log_and_publish (cfg : Config) (w : World) (rows : list Row)
  (latest : Row) : list Write * Outcome :=
  let '(action, color, strong) := determine_action cfg (spread_pct latest) in
  let early : list Write :=
    if strong then [SetLastStrongTime (now w)] else [] in
  let log_row :=
    {| lr_row := latest; lr_action := action; lr_color := color |} in
  if csv_writable w then
    let rows_with_colors := map (row_with_color cfg) rows in
    ((early ++ [LockedUpdate log_row rows_with_colors
                  (read_vanguard_csv w)])%list,
     Logged log_row)
  else (early, CycleError OSError).

(** [compute_and_log], as the stores it performs in program order and the
    way it ends.  An exception leaves through the [except] clause. *)
Definition cycle (cfg : Config) (w : World) : list Write * Outcome :=
  let df_a := fetch_a cfg w in
  let df_b := fetch_b cfg w in
  if empty df_a || empty df_b then ([], MissingData)
  else
    let combined := window cfg w in
    if empty combined then ([], NoAlignedData)
    else
      match scale_factor_of combined with
      | Raise e => ([], CycleError e)
      | Ok scale_factor =>
          let rows := tail 200 (map (add_columns scale_factor) combined) in
          match iloc_last rows with
          | Raise e => ([], CycleError e)
          | Ok latest => log_and_publish cfg w rows latest
          end
      end.

Definition compute_and_log (cfg : Config) (w : World) (st : State)
  : State * Outcome :=
  let (writes, out) := cycle cfg w in
  (fold_left apply_write writes st, out).

(** The states a concurrent [index] request can find while a cycle runs:
    one after each prefix of its stores. *)
Definition observable (st : State) (writes : list Write) : list State :=
  map (fun k => fold_left apply_write (firstn k writes) st)
      (seq 0 (S (List.length writes))).

(** *** The view *)

Definition contains (needle hay : string) : bool :=
  match String.index 0 needle hay with
  | Some _ => true
  | None => false
  end.

Record Page : Type := mkPage {
  last_time : Timestamp;
  top_action : string;
  top_color : string;
  top_spread_pct : xq;
  countdown : option (Z * Z);
  page_shares : Shares;
  page_rows : list (RowDict * string);
  page_market_msg : string
}.

(** [index()]; [None] is the "No data yet" reply.  [clock] is
    [datetime.now()] at request time.  The page holds the arguments handed
    to the template; what the template does with them is not part of it. *)
Definition index (clock : Timestamp) (st : State) : option Page :=
  match last_row st with
  | None => None
  | Some lr =>
      Some {| last_time := Datetime (lr_row lr);
              top_action :=
                if contains "Strong" (lr_action lr) then lr_action lr else "None";
              top_color :=
                if contains "Strong" (lr_action lr) then lr_color lr else "yellow";
              top_spread_pct := spread_pct (lr_row lr);
              countdown :=
                match last_strong_time st with
                | Some t => let secs := ((clock - t) mod 86400)%Z in
                            Some ((secs / 60)%Z, (secs mod 60)%Z)
                | None => None
                end;
              page_shares := shares st;
              page_rows := firstn 50 (rev (df_tail st));
              page_market_msg := market_msg st |}
  end.

(** *** The scheduler *)

(** One [compute_and_log] per tick, each on the state the previous one left. *)
Fixpoint run_scheduler (cfg : Config) (ticks : list World) (st : State)
  : State * list Outcome :=
  match ticks with
  | [] => (st, [])
  | w :: later =>
      let (st1, out) := compute_and_log cfg w st in
      let (st2, outs) := run_scheduler cfg later st1 in
      (st2, out :: outs)
  end.

End Monitor.

(** ** voo_vti_spread.py *)

Module SpreadScript.

Definition symbol1 : string := "VOO".
Definition symbol2 : string := "VTI".
Definition lookback : string := "7d".
Definition primary_interval : string := "1m".
Definition threshold_pct : Q := 10 # 100.

(** A provider call, by its period and interval. *)
Definition Call : Type := (string * string)%type.

(** A computation that may raise, with the provider calls it has made. *)
Definition traced (A : Type) : Type := (list Call * result A)%type.

Definition tret {A : Type} (a : A) : traced A := ([], Ok a).

Definition traise {A : Type} (e : exn) : traced A := ([], Raise e).

Definition tbind {A B : Type} (m : traced A) (k : A -> traced B) : traced B :=
  match m with
  | (calls, Ok a) => let (more, r) := k a in ((calls ++ more)%list, r)
  | (calls, Raise e) => (calls, Raise e)
  end.

Notation "x <~ m ;; k" := (tbind m (fun x => k))
  (at level 61, m at next level, right associativity).

(** [yf.download(symbol, period=period, interval=interval, auto_adjust=True)] *)
Definition download (yf : Provider) (symbol period interval : string)
  : traced DataFrame :=
  match yf symbol period interval true with
  | Downloaded df => ([(period, interval)], Ok df)
  | DownloadRaised => ([(period, interval)], Raise ProviderError)
  end.

Definition download_close_series (yf : Provider) (symbol period interval : string)
  : traced DataFrame :=
  data <~ download yf symbol period interval ;;
  data <~ (if empty data then download yf symbol period "5m" else tret data) ;;
  data <~ (if empty data then download yf symbol "30d" "1d" else tret data) ;;
  if empty data then traise ValueError else tret (Close data).

Record Row : Type := mkRow {
  Datetime : Timestamp;
  VOO : Q;
  VTI : Q;
  VTI_scaled : xq;
  spread : xq;
  spread_pct : xq
}.

(** [df["VOO"].iloc[-1] / df["VTI"].iloc[-1]]: a numpy division. *)
Definition scale_factor_of (df : list Aligned) : result xq :=
  last <- iloc_last df ;;
  Ok (xdiv (Fin (al_a last)) (Fin (al_b last))).

Definition add_columns (scale_factor : xq) (r : Aligned) : Row :=
  let scaled := xmul (Fin (al_b r)) scale_factor in
  let sp := xsub (Fin (al_a r)) scaled in
  {| Datetime := al_time r;
     VOO := al_a r;
     VTI := al_b r;
     VTI_scaled := scaled;
     spread := sp;
     spread_pct := xmul (xdiv sp scaled) (Fin 100) |}.

(** What the script prints at the end. *)
Record Report : Type := mkReport {
  scale_factor : xq;
  df : list Row;
  latest_spread_pct : xq;
  alert : bool
}.

Definition lift {A : Type} (r : result A) : traced A := ([], r).

(** The module body from [# ALIGN & MERGE SAFELY] down, on the two close
    series. *)
Definition analyse (voo_close vti_close : DataFrame) : result Report :=
  let merged := combine voo_close vti_close in
  scale <- scale_factor_of merged ;;
  let rows := map (add_columns scale) merged in
  latest <- iloc_last rows ;;
  Ok {| scale_factor := scale;
        df := rows;
        latest_spread_pct := spread_pct latest;
        alert := xgt (xabs (spread_pct latest)) threshold_pct |}.

(** The module body, top to bottom. *)
Definition script (yf : Provider) : traced Report :=
  voo_close <~ download_close_series yf symbol1 lookback primary_interval ;;
  vti_close <~ download_close_series yf symbol2 lookback primary_interval ;;
  lift (analyse voo_close vti_close).

End SpreadScript.

(** ** Sample inputs *)

Module Samples.

(** The two series of the worked scenario, at timestamps [t1] and [t2]. *)
Definition series_a (t1 t2 : Timestamp) : DataFrame := [(t1, 100); (t2, 101)].
Definition series_b (t1 t2 : Timestamp) : DataFrame := [(t1, 50); (t2, 49)].

(** A provider that serves fixed frames for the two symbols at every
    granularity. *)
Definition serve (fa fb : DataFrame) : Provider :=
  fun symbol _ _ _ =>
    if String.eqb symbol "VOO" then Downloaded fa
    else if String.eqb symbol "VTI" then Downloaded fb
    else Downloaded [].

(** A provider with no data at all. *)
Definition no_data : Provider := fun _ _ _ _ => Downloaded [].

(** A provider that raises on every call. *)
Definition broken : Provider := fun _ _ _ _ => DownloadRaised.

Definition world (p : Provider) (clock : Timestamp) : Monitor.World :=
  {| Monitor.yf := p;
     Monitor.now := clock;
     Monitor.csv_writable := true;
     Monitor.vanguard_shares := (0, 0) |}.

(** The worked scenario at timestamps [t1] and [t2], polled at [clock]. *)
Definition scenario_at (t1 t2 clock : Timestamp) : Monitor.World :=
  world (serve (series_a t1 t2) (series_b t1 t2)) clock.

(** The worked scenario at timestamps 1 and 2, polled at time 99. *)
Definition scenario_a : DataFrame := series_a 1%Z 2%Z.
Definition scenario_b : DataFrame := series_b 1%Z 2%Z.
Definition aligned_1 : Aligned := mkAligned 1%Z 100 50.
Definition aligned_2 : Aligned := mkAligned 2%Z 101 49.

Definition scenario : Monitor.World :=
  world (serve scenario_a scenario_b) 99%Z.

(** Two series that share no timestamp. *)
Definition disjoint_world : Monitor.World :=
  world (serve [(1%Z, 100)] [(2%Z, 50)]) 130%Z.

(** Series whose first common bar has a zero close for symbol B. *)
Definition zero_world : Monitor.World :=
  world (serve [(1%Z, 100); (2%Z, 101)] [(1%Z, 0); (2%Z, 49)]) 160%Z.

(** The row the scenario logs. *)
Definition scenario_log_row : Monitor.LogRow :=
  {| Monitor.lr_row :=
       {| Monitor.Datetime := 2%Z;
          Monitor.col_a := 101;
          Monitor.col_b := 49;
          Monitor.B_scaled := 4900 # 50;
          Monitor.spread := 150 # 50;
          Monitor.spread_pct := Fin (15000 # 5050) |};
     Monitor.lr_action := "Strong Sell VOO / Buy VTI";
     Monitor.lr_color := "darkred" |}.

(** What the script reports on the scenario. *)
Definition scenario_report : SpreadScript.Report :=
  let scale := Fin (101 / 49) in
  {| SpreadScript.scale_factor := scale;
     SpreadScript.df :=
       [SpreadScript.add_columns scale aligned_1;
        SpreadScript.add_columns scale aligned_2];
     SpreadScript.latest_spread_pct :=
       SpreadScript.spread_pct (SpreadScript.add_columns scale aligned_2);
     SpreadScript.alert := false |}.

(** A quiet market: both symbols flat, so the spread is zero. *)
Definition quiet_world : Monitor.World :=
  world (serve [(1%Z, 100); (2%Z, 100)] [(1%Z, 50); (2%Z, 50)]) 69%Z.

(** The state a quiet cycle leaves when run from the initial state. *)
Definition after_quiet : Monitor.State :=
  fst (Monitor.compute_and_log Monitor.CONFIG quiet_world Monitor.state0).

(** The scenario with a log file that cannot be written. *)
Definition unwritable_scenario : Monitor.World :=
  {| Monitor.yf := serve scenario_a scenario_b;
     Monitor.now := 99%Z;
     Monitor.csv_writable := false;
     Monitor.vanguard_shares := (0, 0) |}.

(** The state the scenario leaves when run from the initial state. *)
Definition after_scenario : Monitor.State :=
  fst (Monitor.compute_and_log Monitor.CONFIG scenario Monitor.state0).

End Samples.

(** ** Vocabulary of the statements *)

(** Equality of values, up to the representation of a rational. *)
Definition xeq (x y : xq) : Prop :=
  match x, y with
  | Fin p, Fin q => p == q
  | PInf, PInf | NInf, NInf | NaN, NaN => True
  | _, _ => False
  end.

(** A list of timestamps in chronological order. *)
Definition chronological (ts : list Timestamp) : Prop :=
  StronglySorted Z.le ts.

Section FetchOutcomes.

Variable yf : Provider.
Variable symbol : string.

(** Outcome of the interval loop: either every interval came back empty and
    all were asked, or the loop stopped at the first interval with data. *)
Definition loop_outcome (ivs asked : list string) (df : DataFrame) : Prop :=
  (df = [] /\ asked = ivs /\
   Forall (fun iv => Monitor.fetch_interval_safe yf symbol iv = []) ivs)
  \/
  (exists init iv rest,
      ivs = (init ++ iv :: rest)%list /\
      asked = (init ++ [iv])%list /\
      Forall (fun iv' => Monitor.fetch_interval_safe yf symbol iv' = []) init /\
      df = Monitor.fetch_interval_safe yf symbol iv /\
      df <> []).

(** The three provider calls of [download_close_series], in program order. *)
Definition script_calls (period interval : string) : list SpreadScript.Call :=
  [(period, interval); (period, "5m"); ("30d", "1d")].

Definition answer (c : SpreadScript.Call) : Download :=
  yf symbol (fst c) (snd c) true.

Definition script_outcome (period interval : string)
  (r : SpreadScript.traced DataFrame) : Prop :=
  let calls := script_calls period interval in
  (Forall (fun c => answer c = Downloaded []) calls /\
   r = (calls, Raise ValueError))
  \/
  (exists init c rest,
      calls = (init ++ c :: rest)%list /\
      Forall (fun c' => answer c' = Downloaded []) init /\
      ((exists df, answer c = Downloaded df /\ df <> [] /\
                   r = ((init ++ [c])%list, Ok df))
       \/ (answer c = DownloadRaised /\
           r = ((init ++ [c])%list, Raise ProviderError)))).

End FetchOutcomes.

(** The frame a cycle classifies: the last 200 rows of the scaled window. *)
Definition scaled_rows (first : Aligned) (rest : list Aligned) : list Monitor.Row :=
  tail 200 (map (Monitor.add_columns (al_a first / al_b first)) (first :: rest)).

(** The last row agrees with the chain on its own spread percentage. *)
Definition snapshot_consistent (cfg : Monitor.Config) (st : Monitor.State) : Prop :=
  match Monitor.last_row st with
  | None => True
  | Some lr =>
      fst (Monitor.determine_action cfg (Monitor.spread_pct (Monitor.lr_row lr)))
        = (Monitor.lr_action lr, Monitor.lr_color lr)
  end.


(** Whether a cycle ended with a row appended to the log. *)
Definition logged (o : Monitor.Outcome) : bool :=
  match o with
  | Monitor.Logged _ => true
  | _ => false
  end.

(** The period [fetch_interval_safe] asks for at an interval. *)
Definition period_for (interval : string) : string :=
  if String.eqb interval "1m" then "6d" else "60d".

(** The [Datetime] column of a published table. *)
Definition table_times (rows : list (Monitor.RowDict * string)) : list Timestamp :=
  map (fun rc => Monitor.Datetime (Monitor.rd_row (fst rc))) rows.

(** Newest first. *)
Definition reverse_chronological (ts : list Timestamp) : Prop :=
  StronglySorted Z.ge ts.

(** The band a spread percentage falls in, read off the action chain. *)
Definition tier_of (cfg : Monitor.Config) (pct : xq) : Monitor.ActionTier :=
  if xge pct (Monitor.THRESHOLD_PCT cfg) then Monitor.StrongSell
  else if xge pct (Monitor.PRE_WARNING_PCT cfg) then Monitor.ApproachingSell
  else if xle pct (- Monitor.THRESHOLD_PCT cfg) then Monitor.StrongBuy
  else if xle pct (- Monitor.PRE_WARNING_PCT cfg) then Monitor.ApproachingBuy
  else Monitor.Neutral.

(** Sell and Buy exchanged. *)
Definition mirror (t : Monitor.ActionTier) : Monitor.ActionTier :=
  match t with
  | Monitor.StrongSell => Monitor.StrongBuy
  | Monitor.ApproachingSell => Monitor.ApproachingBuy
  | Monitor.Neutral => Monitor.Neutral
  | Monitor.ApproachingBuy => Monitor.ApproachingSell
  | Monitor.StrongBuy => Monitor.StrongSell
  end.

(** The bands from Strong Buy (lowest) to Strong Sell (highest). *)
Definition tier_rank (t : Monitor.ActionTier) : Z :=
  match t with
  | Monitor.StrongBuy => 0
  | Monitor.ApproachingBuy => 1
  | Monitor.Neutral => 2
  | Monitor.ApproachingSell => 3
  | Monitor.StrongSell => 4
  end.

(** ** tos_api.py and voo_vti_fetcher.py *)

Module TosApi.

(** The constants imported from [config], a module outside the sources. *)
Record Settings : Type := mkSettings {
  TOS_CLIENT_ID : string;
  TOS_REFRESH_TOKEN : string;
  TOS_REDIRECT_URI : string;
  TOS_BASE_URL : string
}.

(** What a call can raise. *)
Inductive Failure : Type :=
| TokenRefreshFailed (text : string)
| GetFailed (text : string)
| TransportError
| JsonError
| KeyError (key : string).

Inductive Try (A : Type) : Type :=
| Done (a : A)
| Failed (f : Failure).

Arguments Done {A} a.
Arguments Failed {A} f.

(** An HTTP response: status, body text, and the body parsed as JSON when it
    parses. *)
Record Response (J : Type) : Type := mkResponse {
  status_code : Z;
  text : string;
  json : option J
}.

Arguments mkResponse {J} _ _ _.
Arguments status_code {J} _.
Arguments text {J} _.
Arguments json {J} _.

(** The keys the client reads from the token reply. *)
Record TokenJson : Type := mkTokenJson {
  tj_access_token : option string;
  tj_expires_in : option Q
}.

(** The requests the client sends. *)
Inductive Request : Type :=
| Post (url : string) (data : list (string * string))
| Get (url : string) (authorization : string) (params : list (string * string)).

(** What one call finds around it: the clock when the token is checked and
    when a refresh computes the expiry, and the server's replies ([None]
    when [requests] itself raises). *)
Record Net : Type := mkNet {
  clock_check : Q;
  clock_refresh : Q;
  post_reply : string -> list (string * string) -> option (Response TokenJson);
  get_reply : string -> string -> list (string * string)
              -> option (Response string)
}.

(** The attributes of a [TOSAPI] object. *)
Record Client : Type := mkClient {
  access_token : option string;
  expiration : Q
}.

(** [TOSAPI()] *)
Definition init : Client := {| access_token := None; expiration := 0 |}.

(** [not self.access_token] *)
Definition falsy (tok : option string) : bool :=
  match tok with
  | None => true
  | Some s => String.eqb s ""
  end.

(** The token inside an f-string. *)
Definition shown (tok : option string) : string :=
  match tok with
  | None => "None"
  | Some s => s
  end.

Definition token_url : string := "https://api.schwabapi.com/v1/oauth/token".

Definition payload (cf : Settings) : list (string * string) :=
  [("grant_type", "refresh_token");
   ("refresh_token", TOS_REFRESH_TOKEN cf);
   ("client_id", TOS_CLIENT_ID cf)].

(** A method call: the requests sent, the client afterwards, and the value
    returned or the exception raised. *)
Definition Call (A : Type) : Type := (list Request * Client * Try A)%type.

Definition refresh_access_token (cf : Settings) (net : Net) (c : Client)
  : Call unit :=
  let sent := [Post token_url (payload cf)] in
  match post_reply net token_url (payload cf) with
  | None => (sent, c, Failed TransportError)
  | Some response =>
      if negb (status_code response =? 200)%Z then
        (sent, c, Failed (TokenRefreshFailed (text response)))
      else
        match json response with
        | None => (sent, c, Failed JsonError)
        | Some data =>
            match tj_access_token data with
            | None => (sent, c, Failed (KeyError "access_token"))
            | Some tok =>
                let c1 := {| access_token := Some tok;
                             expiration := expiration c |} in
                match tj_expires_in data with
                | None => (sent, c1, Failed (KeyError "expires_in"))
                | Some expires_in =>
                    (sent,
                     {| access_token := Some tok;
                        expiration := clock_refresh net + expires_in - 30 |},
                     Done tt)
                end
            end
        end
  end.

Definition _ensure_token (cf : Settings) (net : Net) (c : Client) : Call unit :=
  if falsy (access_token c) || negb (Qle_bool (clock_check net) (expiration c))
  then refresh_access_token cf net c
  else ([], c, Done tt).

Definition get (cf : Settings) (net : Net) (c : Client) (endpoint : string)
  (params : list (string * string)) : Call string :=
  match _ensure_token cf net c with
  | (sent, c1, Failed f) => (sent, c1, Failed f)
  | (sent, c1, Done _) =>
      let url := TOS_BASE_URL cf ++ "/" ++ endpoint in
      let authorization := "Bearer " ++ shown (access_token c1) in
      let sent' := (sent ++ [Get url authorization params])%list in
      match get_reply net url authorization params with
      | None => (sent', c1, Failed TransportError)
      | Some response =>
          if negb (status_code response =? 200)%Z then
            (sent', c1, Failed (GetFailed (text response)))
          else
            match json response with
            | None => (sent', c1, Failed JsonError)
            | Some data => (sent', c1, Done data)
            end
      end
  end.

(** [get_voo_vti_quotes()] on the module's client [tos]; [None] is Python's
    [None]. *)
Definition get_voo_vti_quotes (cf : Settings) (net : Net) (tos : Client)
  : list Request * Client * option string :=
  match get cf net tos "markets/quotes" [("symbols", "VOO,VTI")] with
  | (sent, tos1, Done data) => (sent, tos1, Some data)
  | (sent, tos1, Failed _) => (sent, tos1, None)
  end.

End TosApi.

(** ** auto_update_monitor.py *)

Module AutoUpdate.

Definition GITHUB_RAW_URL : string :=
  "https://raw.githubusercontent.com/eolsen2002/voo-vti-monitor/main/voo_vti_monitor.py".
Definition LOCAL_FILE : string := "C:\xampp\htdocs\vg-micro\voo_vti_monitor.py".
Definition BACKUP_DIR : string := "C:\xampp\htdocs\vg-micro\backup".

(** Files by path, and the directories that exist. *)
Record FileSystem : Type := mkFileSystem {
  files : string -> option string;
  dirs : string -> bool
}.

Definition write (fs : FileSystem) (path content : string) : FileSystem :=
  {| files := fun p => if String.eqb p path then Some content else files fs p;
     dirs := dirs fs |}.

(** [os.makedirs(path)], as far as [path] itself goes: the parents it also
    creates are not recorded. *)
Definition makedirs (fs : FileSystem) (path : string) : FileSystem :=
  {| files := files fs;
     dirs := fun p => if String.eqb p path then true else dirs fs p |}.

Inductive Failure : Type :=
| FileNotFoundError
| RequestError.

(** [os.path.join(BACKUP_DIR, f"voo_vti_monitor_{timestamp}.py")], with the
    platform's separator. *)
Definition backup_path (sep timestamp : string) : string :=
  BACKUP_DIR ++ sep ++ "voo_vti_monitor_" ++ timestamp ++ ".py".

(** [backup_local_file()]; [timestamp] is the formatted [datetime.now()]. *)
Definition backup_local_file (sep timestamp : string) (fs : FileSystem)
  : FileSystem * option Failure :=
  let fs1 := if negb (dirs fs BACKUP_DIR) then makedirs fs BACKUP_DIR else fs in
  match files fs1 LOCAL_FILE with
  | None => (fs1, Some FileNotFoundError)
  | Some content => (write fs1 (backup_path sep timestamp) content, None)
  end.

(** [download_latest_file()]; [reply] is the answer to the GET: status and
    text, or [None] when [requests.get] raises. *)
Definition download_latest_file (reply : option (Z * string)) (fs : FileSystem)
  : FileSystem * option Failure :=
  match reply with
  | None => (fs, Some RequestError)
  | Some (status, latest_content) =>
      if (status =? 200)%Z then (write fs LOCAL_FILE latest_content, None)
      else (fs, None)
  end.

(** The [__main__] block: the file system afterwards, whether the GET was
    sent, and the exception printed, if any. *)
Definition main (sep timestamp : string) (reply : option (Z * string))
  (fs : FileSystem) : FileSystem * bool * option Failure :=
  match backup_local_file sep timestamp fs with
  | (fs1, Some e) => (fs1, false, Some e)
  | (fs1, None) =>
      let (fs2, e) := download_latest_file reply fs1 in (fs2, true, e)
  end.

End AutoUpdate.

(** ** The holdings file *)

Module Holdings.

Section Lookup.

(** Python's [str.upper]. *)
Variable upper : string -> string.

(** The file behind [CONFIG["VANGUARD_CSV"]]: absent; present but not
    readable as a table with a text [Symbol] and a [Shares] column; or its
    rows, with [None] for an empty [Symbol] cell. *)
Inductive HoldingsFile : Type :=
| NoFile
| Unreadable
| Table (rows : list (option string * Q)).

(** [df.loc[df['Symbol'].str.upper() == sym.upper(), 'Shares']] *)
Definition matched (rows : list (option string * Q)) (sym : string) : list Q :=
  map snd
      (filter (fun row => match fst row with
                          | Some s => String.eqb (upper s) (upper sym)
                          | None => false
                          end) rows).

(** One pass of the loop over the symbols, from the default 0. *)
Definition shares_of (rows : list (option string * Q)) (sym : string) : Q :=
  match matched rows sym with
  | [] => 0
  | first :: _ => first
  end.

(** [read_vanguard_csv()], on what the file holds. *)
Definition read_vanguard_csv (cfg : Monitor.Config) (file : HoldingsFile)
  : Monitor.Shares :=
  match file with
  | NoFile => (0, 0)
  | Unreadable => (0, 0)
  | Table rows =>
      (shares_of rows (Monitor.SYMBOL_A cfg),
       shares_of rows (Monitor.SYMBOL_B cfg))
  end.

End Lookup.

End Holdings.

(** ** Sample servers and files *)

Module MoreSamples.

Definition settings : TosApi.Settings :=
  {| TosApi.TOS_CLIENT_ID := "client";
     TosApi.TOS_REFRESH_TOKEN := "refresh";
     TosApi.TOS_REDIRECT_URI := "https://127.0.0.1";
     TosApi.TOS_BASE_URL := "https://api.schwabapi.com/trader/v1" |}.

(** A server that grants token ["T1"] for 1800 seconds and answers every GET
    with a quote body, seen at clock 1000. *)
Definition granting : TosApi.Net :=
  {| TosApi.clock_check := 1000;
     TosApi.clock_refresh := 1001;
     TosApi.post_reply := fun _ _ =>
       Some (TosApi.mkResponse 200%Z "ok"
               (Some {| TosApi.tj_access_token := Some "T1";
                        TosApi.tj_expires_in := Some 1800 |}));
     TosApi.get_reply := fun _ _ _ =>
       Some (TosApi.mkResponse 200%Z "quotes" (Some "quotes")) |}.

(** The same server one minute later. *)
Definition granting_later : TosApi.Net :=
  {| TosApi.clock_check := 1060;
     TosApi.clock_refresh := 1061;
     TosApi.post_reply := TosApi.post_reply granting;
     TosApi.get_reply := TosApi.get_reply granting |}.

(** A server that refuses the refresh token. *)
Definition refusing : TosApi.Net :=
  {| TosApi.clock_check := 1000;
     TosApi.clock_refresh := 1001;
     TosApi.post_reply := fun _ _ =>
       Some (TosApi.mkResponse 401%Z "invalid_grant" None);
     TosApi.get_reply := fun _ _ _ => None |}.

(** A server whose token reply lacks [expires_in]. *)
Definition forgetful : TosApi.Net :=
  {| TosApi.clock_check := 1000;
     TosApi.clock_refresh := 1001;
     TosApi.post_reply := fun _ _ =>
       Some (TosApi.mkResponse 200%Z "ok"
               (Some {| TosApi.tj_access_token := Some "T2";
                        TosApi.tj_expires_in := None |}));
     TosApi.get_reply := fun _ _ _ => None |}.

(** The client after a grant by [granting]. *)
Definition granted : TosApi.Client :=
  {| TosApi.access_token := Some "T1"; TosApi.expiration := 1001 + 1800 - 30 |}.

(** A disk with the monitor installed and one other file. *)
Definition disk : AutoUpdate.FileSystem :=
  {| AutoUpdate.files := fun p =>
       if String.eqb p AutoUpdate.LOCAL_FILE then Some "old monitor"
       else if String.eqb p "notes.txt" then Some "notes"
       else None;
     AutoUpdate.dirs := fun _ => false |}.


(** Upper-casing of the letters that occur in the sample holdings. *)
Definition upper (s : string) : string :=
  if String.eqb s "voo" then "VOO"
  else if String.eqb s "vti" then "VTI"
  else s.

Definition holdings : list (option string * Q) :=
  [(Some "BND", 7); (None, 1); (Some "voo", 12); (Some "VOO", 99)].

End MoreSamples.

(** The guard around the countdown in [DASH_TEMPLATE]:
    [top_action in ['Strong Buy','Strong Sell']]. *)
Definition shows_countdown (page : Monitor.Page) : bool :=
  String.eqb (Monitor.top_action page) "Strong Buy"
  || String.eqb (Monitor.top_action page) "Strong Sell".

(** * Properties *)

(** ** Numbers *)

Lemma Qis_zero_true (q : Q) : Qis_zero q = true <-> q == 0.
Proof.
  unfold Qis_zero, Qeq. destruct q as [n d]; simpl.
  rewrite Z.mul_1_r. destruct n; split; intro H; try reflexivity; discriminate.
Qed.

Lemma Qis_zero_false (q : Q) : Qis_zero q = false <-> ~ q == 0.
Proof.
  rewrite <- Qis_zero_true. destruct (Qis_zero q); split; intro H.
  - discriminate H.
  - exfalso. apply H. reflexivity.
  - intro E. discriminate E.
  - reflexivity.
Qed.

Lemma py_div_nonzero (x y : Q) : ~ y == 0 -> py_div x y = Ok (x / y).
Proof.
  intro H. unfold py_div. apply Qis_zero_false in H. rewrite H. reflexivity.
Qed.

Lemma py_div_zero (x y : Q) : y == 0 -> py_div x y = Raise ZeroDivisionError.
Proof.
  intro H. unfold py_div. apply Qis_zero_true in H. rewrite H. reflexivity.
Qed.

Lemma xdiv_finite (x y : Q) : ~ y == 0 -> xdiv (Fin x) (Fin y) = Fin (x / y).
Proof.
  intro H. simpl. apply Qis_zero_false in H. rewrite H. reflexivity.
Qed.

(** ** Alignment *)

Section Alignment.

Lemma In_union_index (t : Timestamp) (ia ib : list Timestamp) :
  In t (union_index ia ib) <-> In t ia \/ In t ib.
Proof.
  revert ib. induction ia as [|ta ia IHa]; intro ib.
  - destruct ib; simpl; tauto.
  - induction ib as [|tb ib IHb].
    + simpl. tauto.
    + simpl. destruct (Z.compare_spec ta tb) as [E|L|G].
      * subst tb. simpl. rewrite IHa. tauto.
      * simpl. rewrite IHa. simpl. tauto.
      * simpl. simpl in IHb. rewrite IHb. tauto.
Qed.

Lemma cell_index (t : Timestamp) (s : DataFrame) :
  In t (index_of s) <-> exists v, cell t s = Some v.
Proof.
  induction s as [|[t' v'] s IH]; simpl.
  - split; [tauto | intros [v H]; discriminate].
  - destruct (Z.eqb_spec t t') as [E|N].
    + subst. split; [eauto | auto].
    + rewrite <- IH. split; [intros [H|H]; [congruence | exact H] | auto].
Qed.

Lemma cell_In (t : Timestamp) (v : Q) (s : DataFrame) :
  cell t s = Some v -> In (t, v) s.
Proof.
  induction s as [|[t' v'] s IH]; simpl; [discriminate|].
  destruct (Z.eqb_spec t t') as [E|N]; intro H.
  - left. congruence.
  - right. auto.
Qed.

Lemma In_dropna (r : Aligned) (rows : list JoinedRow) :
  In r (dropna rows) <->
  In (al_time r, (Some (al_a r), Some (al_b r))) rows.
Proof.
  induction rows as [|[t [[a|] [b|]]] rows IH]; simpl;
    try (rewrite IH; split; [auto | intros [H|H]; [discriminate | exact H]]).
  - tauto.
  - rewrite IH. destruct r as [t' a' b']; simpl.
    split; intros [H|H]; auto; left; congruence.
Qed.

Lemma In_combine (r : Aligned) (s_a s_b : DataFrame) :
  In r (combine s_a s_b) <->
  (In (al_time r) (index_of s_a) \/ In (al_time r) (index_of s_b)) /\
  cell (al_time r) s_a = Some (al_a r) /\
  cell (al_time r) s_b = Some (al_b r).
Proof.
  unfold combine, concat. rewrite In_dropna, in_map_iff. split.
  - intros [t [E H]]. inversion E; subst t.
    apply In_union_index in H. repeat split; congruence || exact H.
  - intros [H [Ea Eb]]. exists (al_time r). split.
    + rewrite Ea, Eb. reflexivity.
    + apply In_union_index. exact H.
Qed.

Lemma combine_times (t : Timestamp) (s_a s_b : DataFrame) :
  In t (map al_time (combine s_a s_b)) <->
  In t (index_of s_a) /\ In t (index_of s_b).
Proof.
  rewrite in_map_iff. split.
  - intros [r [E H]]. subst t. apply In_combine in H.
    destruct H as [_ [Ha Hb]]. split; apply cell_index; eauto.
  - intros [Ha Hb].
    destruct (proj1 (cell_index _ _) Ha) as [a Ea].
    destruct (proj1 (cell_index _ _) Hb) as [b Eb].
    exists (mkAligned t a b). split; [reflexivity|].
    apply In_combine. simpl. auto.
Qed.

Lemma combine_nil_l (s_b : DataFrame) : combine [] s_b = [].
Proof.
  destruct (combine [] s_b) as [|r rest] eqn:E; [reflexivity|].
  assert (H : In r (combine [] s_b)) by (rewrite E; left; reflexivity).
  apply In_combine in H. destruct H as [_ [H _]]. discriminate.
Qed.

Lemma combine_nil_r (s_a : DataFrame) : combine s_a [] = [].
Proof.
  destruct (combine s_a []) as [|r rest] eqn:E; [reflexivity|].
  assert (H : In r (combine s_a [])) by (rewrite E; left; reflexivity).
  apply In_combine in H. destruct H as [_ [_ H]]. discriminate.
Qed.

Lemma combine_disjoint (s_a s_b : DataFrame) :
  (forall t, ~ (In t (index_of s_a) /\ In t (index_of s_b))) ->
  combine s_a s_b = [].
Proof.
  intro H. destruct (combine s_a s_b) as [|r rest] eqn:E; [reflexivity|].
  exfalso. apply (H (al_time r)). apply combine_times. rewrite E. left.
  reflexivity.
Qed.

End Alignment.

(** ** Chronological order *)

Section Chronology.

Lemma insert_by_index_In (p q : PricePoint) (df : DataFrame) :
  In q (insert_by_index p df) <-> q = p \/ In q df.
Proof.
  induction df as [|p' df IH]; simpl.
  - intuition congruence.
  - destruct (fst p <=? fst p')%Z; simpl; [|rewrite IH]; intuition congruence.
Qed.

Lemma insert_by_index_sorted (p : PricePoint) (df : DataFrame) :
  chronological (index_of df) ->
  chronological (index_of (insert_by_index p df)).
Proof.
  unfold chronological, index_of.
  induction df as [|p' df IH]; simpl; intro H.
  - repeat constructor.
  - apply StronglySorted_inv in H. destruct H as [Hs Hall].
    destruct (Z.leb_spec (fst p) (fst p')) as [L|G]; simpl.
    + constructor; [constructor; assumption|].
      constructor; [exact L|].
      eapply Forall_impl; [|exact Hall]. intros t Ht. simpl in Ht.
      exact (Z.le_trans _ _ _ L Ht).
    + constructor; [auto|].
      apply Forall_forall. intros t Ht. apply in_map_iff in Ht.
      destruct Ht as [q [E Hq]]. subst t.
      apply insert_by_index_In in Hq. destruct Hq as [Hq|Hq].
      * subst q. apply Z.lt_le_incl. exact G.
      * rewrite Forall_forall in Hall. apply Hall. apply in_map. exact Hq.
Qed.

Lemma sort_index_sorted (df : DataFrame) :
  chronological (index_of (sort_index df)).
Proof.
  induction df as [|p df IH]; simpl.
  - constructor.
  - apply insert_by_index_sorted. exact IH.
Qed.

Lemma sort_index_In (q : PricePoint) (df : DataFrame) :
  In q (sort_index df) <-> In q df.
Proof.
  induction df as [|p df IH]; simpl; [tauto|].
  rewrite insert_by_index_In, IH. intuition congruence.
Qed.

Lemma union_index_sorted (ia ib : list Timestamp) :
  chronological ia -> chronological ib -> chronological (union_index ia ib).
Proof.
  unfold chronological. revert ib.
  induction ia as [|ta ia IHa]; intros ib Ha Hb.
  - destruct ib; exact Hb.
  - induction ib as [|tb ib IHb].
    + exact Ha.
    + pose proof (StronglySorted_inv Ha) as [Ha' Fa].
      pose proof (StronglySorted_inv Hb) as [Hb' Fb].
      rewrite Forall_forall in Fa, Fb.
      simpl. destruct (Z.compare_spec ta tb) as [E|L|G].
      * subst tb. constructor; [apply IHa; assumption|].
        apply Forall_forall. intros t Ht. apply In_union_index in Ht.
        destruct Ht; auto.
      * constructor; [apply IHa; assumption|].
        apply Forall_forall. intros t Ht. apply In_union_index in Ht.
        destruct Ht as [Ht|[Ht|Ht]].
        -- auto.
        -- subst t. apply Z.lt_le_incl. exact L.
        -- apply Z.le_trans with tb; [apply Z.lt_le_incl; exact L | auto].
      * constructor; [apply IHb; assumption|].
        apply Forall_forall. intros t Ht.
        change (In t (union_index (ta :: ia) ib)) in Ht.
        apply In_union_index in Ht.
        destruct Ht as [[Ht|Ht]|Ht].
        -- subst t. apply Z.lt_le_incl. exact G.
        -- apply Z.le_trans with ta; [apply Z.lt_le_incl; exact G | auto].
        -- auto.
Qed.

Lemma dropna_times_sorted (rows : list JoinedRow) :
  chronological (map fst rows) ->
  chronological (map al_time (dropna rows)).
Proof.
  unfold chronological.
  induction rows as [|[t [[a|] [b|]]] rows IH]; simpl; intro H;
    try (apply StronglySorted_inv in H; destruct H as [H _]; auto; fail).
  - constructor.
  - apply StronglySorted_inv in H. destruct H as [Hs Hall].
    constructor; [auto|].
    rewrite Forall_forall in *. intros t' Ht'. apply Hall.
    apply in_map_iff in Ht'. destruct Ht' as [r [E Hr]]. subst t'.
    apply In_dropna in Hr. apply in_map_iff.
    exists (al_time r, (Some (al_a r), Some (al_b r))). auto.
Qed.

Lemma combine_sorted (s_a s_b : DataFrame) :
  chronological (index_of s_a) -> chronological (index_of s_b) ->
  chronological (map al_time (combine s_a s_b)).
Proof.
  intros Ha Hb. unfold combine, concat. apply dropna_times_sorted.
  rewrite map_map. simpl. rewrite map_id.
  apply union_index_sorted; assumption.
Qed.

(** In a chronological frame the first row is the earliest one. *)
Lemma chronological_head {A : Type} (time : A -> Timestamp) (x : A) (l : list A) :
  chronological (map time (x :: l)) ->
  Forall (fun y => (time x <= time y)%Z) (x :: l).
Proof.
  unfold chronological. simpl. intro H. apply StronglySorted_inv in H.
  destruct H as [_ H]. constructor; [apply Z.le_refl|].
  rewrite Forall_forall in *. intros y Hy. apply H. apply in_map. exact Hy.
Qed.

End Chronology.

(** ** Fetching with fallback *)

Section Fetching.

Import Monitor.

Variable yf : Provider.
Variable symbol : string.

Lemma empty_nil {A : Type} (l : list A) : empty l = true <-> l = [].
Proof.
  destruct l; simpl; split; intro H; congruence.
Qed.

Lemma try_intervals_outcome (ivs : list string) :
  loop_outcome yf symbol ivs (fst (try_intervals yf symbol ivs))
               (snd (try_intervals yf symbol ivs)).
Proof.
  induction ivs as [|iv ivs IH]; simpl.
  - left. auto.
  - destruct (fetch_interval_safe yf symbol iv) as [|p df] eqn:E; simpl.
    + destruct (try_intervals yf symbol ivs) as [asked found]. simpl in *.
      destruct IH as [[H1 [H2 H3]] | [init [iv' [rest [H1 [H2 [H3 [H4 H5]]]]]]]].
      * left. subst. auto.
      * right. exists (iv :: init), iv', rest. subst ivs asked. simpl.
        repeat split; auto.
    + right. exists [], iv, ivs. simpl. rewrite E.
      repeat split; auto. discriminate.
Qed.

(** A provider failure is absorbed: the fetch of one interval is empty. *)
Lemma fetch_interval_safe_raised (iv : string) :
  yf symbol (if String.eqb iv "1m" then "6d" else "60d") iv false
    = DownloadRaised ->
  fetch_interval_safe yf symbol iv = [].
Proof.
  intro H. unfold fetch_interval_safe. rewrite H. reflexivity.
Qed.

Lemma fetch_interval_safe_sorted (iv : string) :
  chronological (index_of (fetch_interval_safe yf symbol iv)).
Proof.
  unfold fetch_interval_safe.
  destruct (yf symbol _ iv false) as [df|]; [|constructor].
  destruct (empty df); [constructor | apply sort_index_sorted].
Qed.

Lemma try_intervals_sorted (ivs : list string) :
  chronological (index_of (snd (try_intervals yf symbol ivs))).
Proof.
  destruct (try_intervals_outcome ivs)
    as [[H _] | [init [iv [rest [_ [_ [_ [H _]]]]]]]]; rewrite H.
  - constructor.
  - apply fetch_interval_safe_sorted.
Qed.

Lemma get_minute_data_sorted (primary : string) (fallbacks : list string) :
  chronological (index_of (get_minute_data yf symbol primary fallbacks)).
Proof.
  apply try_intervals_sorted.
Qed.

Ltac settle_outcome :=
  unfold answer; simpl; repeat split; auto;
  try solve [repeat constructor; assumption];
  try solve [left; eexists; repeat split; eauto; discriminate];
  try solve [right; auto].

Lemma download_close_series_outcome (period interval : string) :
  script_outcome yf symbol period interval
    (SpreadScript.download_close_series yf symbol period interval).
Proof.
  unfold script_outcome, script_calls, SpreadScript.download_close_series,
    SpreadScript.download.
  destruct (yf symbol period interval true) as [[|p1 d1]|] eqn:E1; simpl;
    try (right; exists [], (period, interval), [(period, "5m"); ("30d", "1d")];
         settle_outcome; fail).
  destruct (yf symbol period "5m" true) as [[|p2 d2]|] eqn:E2; simpl;
    try (right; exists [(period, interval)], (period, "5m"), [("30d", "1d")];
         settle_outcome; fail).
  destruct (yf symbol "30d" "1d" true) as [[|p3 d3]|] eqn:E3; simpl;
    try (right; exists [(period, interval); (period, "5m")], ("30d", "1d"), [];
         settle_outcome; fail).
  left. settle_outcome.
Qed.

End Fetching.

(** ** Frames: the last rows *)

Section Tails.

Context {A : Type}.

Lemma iloc_last_snoc (l : list A) (x : A) : iloc_last (l ++ [x])%list = Ok x.
Proof.
  unfold iloc_last. rewrite rev_app_distr. reflexivity.
Qed.

Lemma snoc_cases (l : list A) :
  l = [] \/ exists init x, l = (init ++ [x])%list.
Proof.
  destruct l as [|a l]; [left; reflexivity | right].
  destruct (exists_last (l := a :: l)) as [init [x E]]; [discriminate|].
  exists init, x. exact E.
Qed.

Lemma tail_snoc (n : nat) (l : list A) (x : A) :
  (0 < n)%nat -> tail n (l ++ [x])%list = (tail (n - 1) l ++ [x])%list.
Proof.
  intro Hn. unfold tail. rewrite length_app. simpl.
  replace (List.length l + 1 - n)%nat with (List.length l - (n - 1))%nat by lia.
  rewrite skipn_app.
  replace (List.length l - (n - 1) - List.length l)%nat with 0%nat by lia.
  reflexivity.
Qed.

Lemma In_tail (n : nat) (l : list A) (x : A) : In x (tail n l) -> In x l.
Proof.
  unfold tail. intro H. rewrite <- (firstn_skipn (List.length l - n) l).
  apply in_or_app. right. exact H.
Qed.

End Tails.

(** ** One cycle of the monitor *)

Section Cycle.

Import Monitor.

Variable cfg : Config.
Variable w : World.

Lemma fetch_a_sorted : chronological (index_of (fetch_a cfg w)).
Proof. apply get_minute_data_sorted. Qed.

Lemma fetch_b_sorted : chronological (index_of (fetch_b cfg w)).
Proof. apply get_minute_data_sorted. Qed.

Lemma window_sorted : chronological (map al_time (window cfg w)).
Proof.
  apply combine_sorted; [apply fetch_a_sorted | apply fetch_b_sorted].
Qed.

Lemma window_fetches (first : Aligned) (rest : list Aligned) :
  window cfg w = first :: rest ->
  empty (fetch_a cfg w) || empty (fetch_b cfg w) = false.
Proof.
  unfold window, Close. intro H.
  destruct (fetch_a cfg w) as [|pa da]; [rewrite combine_nil_l in H; discriminate|].
  destruct (fetch_b cfg w) as [|pb db]; [rewrite combine_nil_r in H; discriminate|].
  reflexivity.
Qed.

Lemma cycle_missing :
  fetch_a cfg w = [] \/ fetch_b cfg w = [] -> cycle cfg w = ([], MissingData).
Proof.
  intro H. unfold cycle.
  destruct H as [H|H]; rewrite H; simpl; [reflexivity|].
  rewrite orb_true_r. reflexivity.
Qed.

Lemma cycle_unaligned :
  window cfg w = [] ->
  cycle cfg w = ([], MissingData) \/ cycle cfg w = ([], NoAlignedData).
Proof.
  intro H. unfold cycle.
  destruct (empty (fetch_a cfg w) || empty (fetch_b cfg w)); [left; reflexivity|].
  right. rewrite H. reflexivity.
Qed.

Lemma cycle_zero_divisor (first : Aligned) (rest : list Aligned) :
  window cfg w = first :: rest -> al_b first == 0 ->
  cycle cfg w = ([], CycleError ZeroDivisionError).
Proof.
  intros H Hz. unfold cycle, scale_factor_of.
  rewrite (window_fetches _ _ H), H. cbn [empty iloc_first bind].
  rewrite (py_div_zero _ _ Hz). reflexivity.
Qed.

Lemma scaled_rows_last (first : Aligned) (rest : list Aligned) :
  exists init latest,
    scaled_rows first rest = (init ++ [latest])%list /\
    iloc_last (scaled_rows first rest) = Ok latest.
Proof.
  unfold scaled_rows.
  destruct (snoc_cases (first :: rest)) as [E | [init [x E]]]; [discriminate|].
  rewrite E, map_app. simpl. rewrite tail_snoc by lia.
  eexists. eexists. split; [reflexivity | apply iloc_last_snoc].
Qed.

Lemma cycle_runs (first : Aligned) (rest : list Aligned) :
  window cfg w = first :: rest -> ~ al_b first == 0 ->
  exists latest,
    iloc_last (scaled_rows first rest) = Ok latest /\
    cycle cfg w = log_and_publish cfg w (scaled_rows first rest) latest.
Proof.
  intros H Hnz. destruct (scaled_rows_last first rest) as [init [latest [_ E]]].
  exists latest. split; [exact E|].
  unfold cycle, scale_factor_of.
  rewrite (window_fetches _ _ H), H. cbn [empty iloc_first bind].
  rewrite (py_div_nonzero _ _ Hnz).
  fold (scaled_rows first rest). rewrite E. reflexivity.
Qed.

(** A cycle has one of four shapes, decided by the window alone. *)
Lemma cycle_cases :
  (window cfg w = [] /\
   (cycle cfg w = ([], MissingData) \/ cycle cfg w = ([], NoAlignedData)))
  \/
  (exists first rest,
      window cfg w = first :: rest /\
      ((al_b first == 0 /\ cycle cfg w = ([], CycleError ZeroDivisionError))
       \/
       (~ al_b first == 0 /\
        exists latest,
          iloc_last (scaled_rows first rest) = Ok latest /\
          cycle cfg w = log_and_publish cfg w (scaled_rows first rest) latest))).
Proof.
  destruct (window cfg w) as [|first rest] eqn:H.
  - left. split; [reflexivity | apply cycle_unaligned; exact H].
  - right. exists first, rest. split; [reflexivity|].
    destruct (Qeq_dec (al_b first) 0) as [Hz|Hnz].
    + left. split; [exact Hz | apply (cycle_zero_divisor _ _ H Hz)].
    + right. split; [exact Hnz | apply (cycle_runs _ _ H Hnz)].
Qed.

(** What a cycle that appends a log row has done. *)
Lemma cycle_logged (writes : list Write) (lr : LogRow) :
  cycle cfg w = (writes, Logged lr) ->
  exists first rest,
    window cfg w = first :: rest /\
    ~ al_b first == 0 /\
    iloc_last (scaled_rows first rest) = Ok (lr_row lr) /\
    determine_action cfg (spread_pct (lr_row lr))
      = (lr_action lr, lr_color lr, snd (determine_action cfg (spread_pct (lr_row lr)))) /\
    writes =
      ((if snd (determine_action cfg (spread_pct (lr_row lr)))
        then [SetLastStrongTime (now w)] else [])
       ++ [LockedUpdate lr (map (row_with_color cfg) (scaled_rows first rest))
             (read_vanguard_csv w)])%list.
Proof.
  intro H.
  destruct cycle_cases as [[_ [E|E]] | [first [rest [Hw [[_ E] | [Hnz [latest [Hl E]]]]]]]];
    rewrite E in H; try discriminate.
  exists first, rest. split; [exact Hw|]. split; [exact Hnz|].
  unfold log_and_publish in H.
  destruct (determine_action cfg (spread_pct latest)) as [[action color] strong] eqn:D.
  destruct (csv_writable w); [|discriminate].
  inversion H; subst; clear H. simpl. rewrite D. simpl. auto.
Qed.

End Cycle.

(** ** Alignment, as both programs use it *)

(** C8.  The timestamps of the aligned frame are exactly the timestamps that
    occur in both input series, and every aligned row carries the two closes
    the inputs hold at its timestamp: nothing is filled in.  The monitor's
    window and the script's frame are both built this way. *)
Theorem aligned_timestamps_are_the_intersection (s_a s_b : DataFrame) :
  (forall t, In t (map al_time (combine s_a s_b)) <->
             In t (index_of s_a) /\ In t (index_of s_b)) /\
  (forall r, In r (combine s_a s_b) ->
             In (al_time r, al_a r) s_a /\ In (al_time r, al_b r) s_b) /\
  (forall cfg w,
      Monitor.window cfg w
        = combine (Monitor.fetch_a cfg w) (Monitor.fetch_b cfg w)) /\
  (forall scale,
      map SpreadScript.Datetime (map (SpreadScript.add_columns scale) (combine s_a s_b))
        = map al_time (combine s_a s_b)) /\
  (forall scale,
      map Monitor.Datetime (map (Monitor.add_columns scale) (combine s_a s_b))
        = map al_time (combine s_a s_b)).
Proof.
  split; [intro t; apply combine_times|].
  split.
  { intros r H. apply In_combine in H. destruct H as [_ [Ha Hb]].
    split; apply cell_In; assumption. }
  split; [reflexivity|].
  split; intro scale; rewrite map_map; reflexivity.
Qed.

Lemma aligned_timestamps_are_the_intersection_witness :
  In (1%Z, 100) Samples.scenario_a /\ In (1%Z, 50) Samples.scenario_b.
Proof.
  apply (proj1 (proj2 (aligned_timestamps_are_the_intersection
                         Samples.scenario_a Samples.scenario_b))
           Samples.aligned_1).
  vm_compute. left. reflexivity.
Defined.

(** ** Cycles that find no data *)

Section Skipped.

Import Monitor.

(** C5.  When either fetch is empty, or the two fetched series share no
    timestamp, the cycle ends as a no-data cycle and leaves the whole state
    (last row, recent rows, last strong time) as it was. *)
Theorem no_data_cycle_keeps_state (cfg : Config) (w : World) (st : State) :
  fetch_a cfg w = [] \/ fetch_b cfg w = [] \/
  (forall t, ~ (In t (index_of (fetch_a cfg w)) /\
                In t (index_of (fetch_b cfg w)))) ->
  (snd (compute_and_log cfg w st) = MissingData \/
   snd (compute_and_log cfg w st) = NoAlignedData) /\
  fst (compute_and_log cfg w st) = st /\
  last_row (fst (compute_and_log cfg w st)) = last_row st /\
  df_tail (fst (compute_and_log cfg w st)) = df_tail st /\
  last_strong_time (fst (compute_and_log cfg w st)) = last_strong_time st.
Proof.
  intro H.
  assert (E : cycle cfg w = ([], MissingData) \/ cycle cfg w = ([], NoAlignedData)).
  { destruct H as [H|[H|H]].
    - left. apply cycle_missing. auto.
    - left. apply cycle_missing. auto.
    - apply cycle_unaligned. unfold window, Close. apply combine_disjoint. exact H. }
  unfold compute_and_log. destruct E as [E|E]; rewrite E; simpl; auto 6.
Qed.

Lemma no_data_cycle_keeps_state_witness :
  (snd (compute_and_log CONFIG Samples.disjoint_world Samples.after_scenario)
     = MissingData \/
   snd (compute_and_log CONFIG Samples.disjoint_world Samples.after_scenario)
     = NoAlignedData) /\
  fst (compute_and_log CONFIG Samples.disjoint_world Samples.after_scenario)
    = Samples.after_scenario.
Proof.
  pose proof (no_data_cycle_keeps_state CONFIG Samples.disjoint_world
                Samples.after_scenario) as H.
  assert (P : fetch_a CONFIG Samples.disjoint_world = [] \/
              fetch_b CONFIG Samples.disjoint_world = [] \/
              (forall t, ~ (In t (index_of (fetch_a CONFIG Samples.disjoint_world)) /\
                            In t (index_of (fetch_b CONFIG Samples.disjoint_world))))).
  { right. right. vm_compute. intros t [[Ha|[]] [Hb|[]]]. congruence. }
  destruct (H P) as [H1 [H2 _]]. split; assumption.
Defined.

(** C6.  When symbol B's close at the first aligned row is zero, the Python
    division raises: no scale factor exists, the cycle ends in the [except]
    clause with the state untouched, and the scheduler goes on with the
    remaining ticks from that same state. *)
Theorem zero_divisor_cycle_fails_safely (cfg : Config) (w : World) (st : State)
  (later : list World) (first : Aligned) (rest : list Aligned) :
  window cfg w = first :: rest -> al_b first == 0 ->
  scale_factor_of (window cfg w) = Raise ZeroDivisionError /\
  compute_and_log cfg w st = (st, CycleError ZeroDivisionError) /\
  run_scheduler cfg (w :: later) st
    = (fst (run_scheduler cfg later st),
       CycleError ZeroDivisionError :: snd (run_scheduler cfg later st)) /\
  List.length (snd (run_scheduler cfg (w :: later) st)) = S (List.length later).
Proof.
  intros H Hz.
  assert (C : compute_and_log cfg w st = (st, CycleError ZeroDivisionError)).
  { unfold compute_and_log. rewrite (cycle_zero_divisor cfg w _ _ H Hz).
    reflexivity. }
  assert (L : forall ticks s, List.length (snd (run_scheduler cfg ticks s))
                              = List.length ticks).
  { induction ticks as [|w' ticks IH]; intro s; simpl; [reflexivity|].
    destruct (compute_and_log cfg w' s) as [s1 o].
    specialize (IH s1). destruct (run_scheduler cfg ticks s1). simpl in *.
    congruence. }
  split.
  { rewrite H. unfold scale_factor_of. cbn [iloc_first bind].
    apply py_div_zero. exact Hz. }
  split; [exact C|].
  split.
  { cbn [run_scheduler]. rewrite C.
    destruct (run_scheduler cfg later st). reflexivity. }
  apply L.
Qed.

Lemma zero_divisor_cycle_fails_safely_witness :
  compute_and_log CONFIG Samples.zero_world Samples.after_scenario
    = (Samples.after_scenario, CycleError ZeroDivisionError) /\
  snd (run_scheduler CONFIG [Samples.zero_world; Samples.scenario]
         Samples.after_scenario)
    = [CycleError ZeroDivisionError;
       snd (compute_and_log CONFIG Samples.scenario Samples.after_scenario)].
Proof.
  destruct (zero_divisor_cycle_fails_safely CONFIG Samples.zero_world
              Samples.after_scenario [Samples.scenario]
              (mkAligned 1%Z 100 0) [mkAligned 2%Z 101 49])
    as [_ [C [R _]]].
  - vm_compute. reflexivity.
  - reflexivity.
  - split; [exact C|]. rewrite R. reflexivity.
Defined.

End Skipped.

(** ** Fallback across granularities *)

(** C4, as the code has it.  [get_minute_data] asks for the primary interval
    first and then for the fallbacks in the order given, stops at the first
    interval with data and returns that frame; when every interval is empty
    it has asked for all of them and returns the empty frame, also when the
    provider raises on every call.  [download_close_series] asks for the
    given interval, then ["5m"], then ["1d"], and returns the first frame
    with data, but raises [ValueError] when all three are empty and lets a
    provider failure through. *)
Theorem fallback_order (yf : Provider) (symbol : string) :
  (forall primary fallbacks,
      loop_outcome yf symbol (primary :: fallbacks)
        (fst (Monitor.get_minute_data_calls yf symbol primary fallbacks))
        (Monitor.get_minute_data yf symbol primary fallbacks) /\
      hd_error (fst (Monitor.get_minute_data_calls yf symbol primary fallbacks))
        = Some primary) /\
  (forall primary fallbacks,
      (forall period iv, yf symbol period iv false = DownloadRaised) ->
      Monitor.get_minute_data_calls yf symbol primary fallbacks
        = (primary :: fallbacks, [])) /\
  (forall period interval,
      script_outcome yf symbol period interval
        (SpreadScript.download_close_series yf symbol period interval)).
Proof.
  split; [|split].
  - intros primary fallbacks. split.
    + apply try_intervals_outcome.
    + unfold Monitor.get_minute_data_calls. simpl.
      destruct (negb (empty (Monitor.fetch_interval_safe yf symbol primary)));
        [reflexivity|].
      destruct (Monitor.try_intervals yf symbol fallbacks). reflexivity.
  - intros primary fallbacks H. unfold Monitor.get_minute_data_calls.
    generalize (primary :: fallbacks). intro ivs.
    induction ivs as [|iv ivs IH]; simpl; [reflexivity|].
    rewrite (fetch_interval_safe_raised yf symbol iv (H _ _)). simpl.
    rewrite IH. reflexivity.
  - intros period interval. apply download_close_series_outcome.
Qed.

Lemma fallback_order_witness :
  Monitor.get_minute_data_calls Samples.broken "VOO" "1m" ["2m"; "5m"; "15m"]
    = (["1m"; "2m"; "5m"; "15m"], []).
Proof.
  apply (proj1 (proj2 (fallback_order Samples.broken "VOO"))).
  intros period iv. reflexivity.
Defined.

(** C4 fails on [download_close_series]: with no data at any granularity it
    raises instead of returning an empty result. *)
Lemma download_close_series_raises_on_no_data :
  SpreadScript.download_close_series Samples.no_data "VOO" "7d" "1m"
    = ([("7d", "1m"); ("7d", "5m"); ("30d", "1d")], Raise ValueError) /\
  forall df : DataFrame,
    snd (SpreadScript.download_close_series Samples.no_data "VOO" "7d" "1m")
      <> Ok df.
Proof.
  split; [reflexivity|]. intros df H. vm_compute in H. discriminate H.
Qed.

(** ** Classification *)

Section Classification.

Import Monitor.

Lemma Qle_bool_false (x y : Q) : Qle_bool x y = false -> y < x.
Proof.
  intro H. apply Qnot_le_lt. intro L. apply Qle_bool_iff in L. congruence.
Qed.

Lemma render_injective (cfg : Config) (t1 t2 : ActionTier) :
  render cfg t1 = render cfg t2 -> t1 = t2.
Proof.
  destruct t1, t2; simpl; intro H; try reflexivity; inversion H.
Qed.

(** The chain always lands in one of the five bands, finite value or not. *)
Lemma determine_action_total (cfg : Config) (pct : xq) :
  exists tier, determine_action cfg pct = render cfg tier.
Proof.
  unfold determine_action.
  destruct (xge pct (THRESHOLD_PCT cfg)); [exists StrongSell; reflexivity|].
  destruct (xge pct (PRE_WARNING_PCT cfg)); [exists ApproachingSell; reflexivity|].
  destruct (xle pct (- THRESHOLD_PCT cfg)); [exists StrongBuy; reflexivity|].
  destruct (xle pct (- PRE_WARNING_PCT cfg)); [exists ApproachingBuy; reflexivity|].
  exists Neutral. reflexivity.
Qed.

Ltac bands :=
  repeat match goal with
         | H : Qle_bool _ _ = true |- _ => apply Qle_bool_iff in H
         | H : Qle_bool _ _ = false |- _ => apply Qle_bool_false in H
         end.

(** C3.  With [0 < pre-warning < strong], every finite spread percentage gets
    exactly one tier; the strong test comes first, so a value at or beyond a
    strong threshold is Strong even though it also passes the pre-warning
    test, and the two boundary values [strong] and [- strong] are Strong. *)
Theorem classification_total_with_strong_first (cfg : Config) (q : Q) :
  0 < PRE_WARNING_PCT cfg -> PRE_WARNING_PCT cfg < THRESHOLD_PCT cfg ->
  (exists tier, determine_action cfg (Fin q) = render cfg tier /\
                forall tier', determine_action cfg (Fin q) = render cfg tier' ->
                              tier' = tier) /\
  (THRESHOLD_PCT cfg <= q ->
   determine_action cfg (Fin q) = render cfg StrongSell) /\
  (PRE_WARNING_PCT cfg <= q /\ q < THRESHOLD_PCT cfg ->
   determine_action cfg (Fin q) = render cfg ApproachingSell) /\
  (q <= - THRESHOLD_PCT cfg ->
   determine_action cfg (Fin q) = render cfg StrongBuy) /\
  (- THRESHOLD_PCT cfg < q /\ q <= - PRE_WARNING_PCT cfg ->
   determine_action cfg (Fin q) = render cfg ApproachingBuy) /\
  (- PRE_WARNING_PCT cfg < q /\ q < PRE_WARNING_PCT cfg ->
   determine_action cfg (Fin q) = render cfg Neutral) /\
  (q == THRESHOLD_PCT cfg ->
   determine_action cfg (Fin q) = render cfg StrongSell) /\
  (q == - THRESHOLD_PCT cfg ->
   determine_action cfg (Fin q) = render cfg StrongBuy).
Proof.
  intros Hpre Hthr. split.
  { destruct (determine_action_total cfg (Fin q)) as [tier E].
    exists tier. split; [exact E|]. intros tier' E'.
    apply (render_injective cfg). congruence. }
  unfold determine_action, xge, xle.
  destruct (Qle_bool (THRESHOLD_PCT cfg) q) eqn:E1;
    destruct (Qle_bool (PRE_WARNING_PCT cfg) q) eqn:E2;
    destruct (Qle_bool q (- THRESHOLD_PCT cfg)) eqn:E3;
    destruct (Qle_bool q (- PRE_WARNING_PCT cfg)) eqn:E4;
    bands; repeat split; intros; try reflexivity; exfalso; lra.
Qed.

Lemma classification_total_with_strong_first_witness :
  determine_action CONFIG (Fin (15 # 100)) = render CONFIG StrongSell /\
  determine_action CONFIG (Fin (- (15 # 100))) = render CONFIG StrongBuy.
Proof.
  split.
  - apply (classification_total_with_strong_first CONFIG (15 # 100));
      vm_compute; reflexivity.
  - apply (classification_total_with_strong_first CONFIG (- (15 # 100)));
      vm_compute; reflexivity.
Defined.

End Classification.

(** ** A cycle that publishes *)

Section Published.

Import Monitor.

Variable cfg : Config.

Lemma row_with_color_agrees (r : Row) :
  row_with_color cfg r =
  ({| rd_row := r;
      rd_action := fst (fst (determine_action cfg (spread_pct r))) |},
   snd (fst (determine_action cfg (spread_pct r)))).
Proof.
  unfold row_with_color, determine_action.
  destruct (xge (spread_pct r) (THRESHOLD_PCT cfg)); [reflexivity|].
  destruct (xge (spread_pct r) (PRE_WARNING_PCT cfg)); [reflexivity|].
  destruct (xle (spread_pct r) (- THRESHOLD_PCT cfg)); [reflexivity|].
  destruct (xle (spread_pct r) (- PRE_WARNING_PCT cfg)); reflexivity.
Qed.

Lemma apply_publish (st : State) (early : bool) (t : Timestamp) (lr : LogRow)
  (rows : list (RowDict * string)) (sh : Shares) :
  fold_left apply_write
    ((if early then [SetLastStrongTime t] else []) ++ [LockedUpdate lr rows sh])%list
    st
  = {| last_row := Some lr;
       last_strong_time := if early then Some t else last_strong_time st;
       df_tail := rows;
       shares := sh;
       market_msg := market_msg st |}.
Proof.
  destruct early; reflexivity.
Qed.

(** The state a logging cycle leaves. *)
Lemma compute_and_log_logged (w : World) (st st' : State) (lr : LogRow) :
  compute_and_log cfg w st = (st', Logged lr) ->
  exists first rest init,
    window cfg w = first :: rest /\
    ~ al_b first == 0 /\
    scaled_rows first rest = (init ++ [lr_row lr])%list /\
    fst (determine_action cfg (spread_pct (lr_row lr)))
      = (lr_action lr, lr_color lr) /\
    st' = {| last_row := Some lr;
             last_strong_time :=
               if snd (determine_action cfg (spread_pct (lr_row lr)))
               then Some (now w) else last_strong_time st;
             df_tail := map (row_with_color cfg) (scaled_rows first rest);
             shares := read_vanguard_csv w;
             market_msg := market_msg st |}.
Proof.
  unfold compute_and_log. destruct (cycle cfg w) as [writes out] eqn:C.
  intro H. inversion H; subst st' out; clear H.
  destruct (cycle_logged cfg w writes lr C)
    as [first [rest [Hw [Hnz [Hl [Hd Hwr]]]]]].
  destruct (scaled_rows_last first rest) as [init [latest [Hs Hl']]].
  assert (latest = lr_row lr) by congruence. subst latest.
  exists first, rest, init. repeat split; try assumption.
  - rewrite Hd. reflexivity.
  - rewrite Hwr. apply apply_publish.
Qed.

(** C10.  In the state a cycle publishes, every table row carries the action
    and the colour that the latest-row chain gives for that row's spread
    percentage; the last table row is the logged row with the logged action
    and colour, and it is the first row the view shows. *)
Theorem table_rows_follow_the_latest_row_rule (w : World) (st st' : State)
  (lr : LogRow) :
  compute_and_log cfg w st = (st', Logged lr) ->
  Forall (fun rc : RowDict * string =>
            (rd_action (fst rc), snd rc)
              = fst (determine_action cfg (spread_pct (rd_row (fst rc)))))
         (df_tail st') /\
  last_row st' = Some lr /\
  (exists init,
      df_tail st' =
        (init ++ [({| rd_row := lr_row lr; rd_action := lr_action lr |},
                   lr_color lr)])%list) /\
  (forall clock, exists page,
      index clock st' = Some page /\
      hd_error (page_rows page)
        = Some ({| rd_row := lr_row lr; rd_action := lr_action lr |},
                lr_color lr)).
Proof.
  intro H.
  destruct (compute_and_log_logged w st st' lr H)
    as [first [rest [init [Hw [Hnz [Hs [Hd Hst]]]]]]].
  assert (T : df_tail st' =
              (map (row_with_color cfg) init
                 ++ [({| rd_row := lr_row lr; rd_action := lr_action lr |},
                      lr_color lr)])%list).
  { rewrite Hst. cbn [df_tail]. rewrite Hs, map_app. cbn [map].
    rewrite (row_with_color_agrees (lr_row lr)), Hd. reflexivity. }
  split.
  { rewrite Hst. cbn [df_tail]. apply Forall_forall. intros rc Hrc.
    apply in_map_iff in Hrc. destruct Hrc as [r [E _]]. subst rc.
    rewrite row_with_color_agrees. cbn [fst snd rd_action rd_row].
    destruct (determine_action cfg (spread_pct r)) as [[a c] b]. reflexivity. }
  split; [rewrite Hst; reflexivity|].
  split; [eexists; exact T|].
  intro clock. unfold index. rewrite T.
  replace (last_row st') with (Some lr) by (rewrite Hst; reflexivity).
  eexists. split; [reflexivity|]. cbn [page_rows].
  rewrite rev_app_distr. reflexivity.
Qed.

End Published.

Lemma table_rows_follow_the_latest_row_rule_witness :
  Forall (fun rc : Monitor.RowDict * string =>
            (Monitor.rd_action (fst rc), snd rc)
              = fst (Monitor.determine_action Monitor.CONFIG
                       (Monitor.spread_pct (Monitor.rd_row (fst rc)))))
         (Monitor.df_tail Samples.after_scenario) /\
  Monitor.last_row Samples.after_scenario = Some Samples.scenario_log_row.
Proof.
  destruct (table_rows_follow_the_latest_row_rule Monitor.CONFIG
              Samples.scenario Monitor.state0 Samples.after_scenario
              Samples.scenario_log_row) as [H1 [H2 _]].
  - vm_compute. reflexivity.
  - split; assumption.
Defined.

(** ** The worked scenario *)

Section Scenario.

Import Monitor.

Variables t1 t2 clock : Timestamp.

Lemma scenario_window :
  (t1 < t2)%Z ->
  window CONFIG (Samples.scenario_at t1 t2 clock)
    = [mkAligned t1 100 50; mkAligned t2 101 49].
Proof.
  intro H.
  assert (L : (t1 <=? t2)%Z = true) by (apply Z.leb_le; lia).
  assert (N : (t2 =? t1)%Z = false) by (apply Z.eqb_neq; lia).
  unfold Samples.scenario_at, window, fetch_a, fetch_b, get_minute_data,
    get_minute_data_calls, Close.
  cbn -[Z.leb Z.eqb Z.compare]. rewrite L.
  cbn -[Z.leb Z.eqb Z.compare]. rewrite !Z.compare_refl.
  cbn -[Z.leb Z.eqb Z.compare]. rewrite !Z.eqb_refl, N. reflexivity.
Qed.

(** C9.  On series_a = [(t1,100),(t2,101)] and series_b = [(t1,50),(t2,49)]
    with [t1 < t2], under the configured thresholds 0.15 and 0.10: the scale
    factor is 2; the logged row is the one at t2, with scaled B 98, spread 3
    and spread percentage 3/101*100, which lies between 2.970 and 2.971; its
    action is Strong Sell. *)
Theorem worked_scenario (st : State) :
  (t1 < t2)%Z ->
  exists scale lr pct,
    scale_factor_of (window CONFIG (Samples.scenario_at t1 t2 clock)) = Ok scale /\
    scale == 2 /\
    snd (compute_and_log CONFIG (Samples.scenario_at t1 t2 clock) st) = Logged lr /\
    Datetime (lr_row lr) = t2 /\
    col_a (lr_row lr) == 101 /\
    col_b (lr_row lr) == 49 /\
    B_scaled (lr_row lr) == 98 /\
    spread (lr_row lr) == 3 /\
    spread_pct (lr_row lr) = Fin pct /\
    pct == 3 / 101 * 100 /\
    2970 # 1000 <= pct /\ pct < 2971 # 1000 /\
    determine_action CONFIG (Fin pct) = render CONFIG StrongSell /\
    lr_action lr = "Strong Sell VOO / Buy VTI" /\
    lr_color lr = "darkred".
Proof.
  intro H. pose proof (scenario_window H) as W.
  destruct (cycle_runs CONFIG (Samples.scenario_at t1 t2 clock) _ _ W)
    as [latest [L C]]; [vm_compute; discriminate|].
  vm_compute in L. inversion L; subst latest; clear L.
  unfold compute_and_log. rewrite C, W.
  eexists. eexists. eexists.
  split; [vm_compute; reflexivity|].
  split; [vm_compute; reflexivity|].
  split; [vm_compute; reflexivity|].
  repeat split; try (vm_compute; reflexivity); vm_compute; discriminate.
Qed.

End Scenario.

Lemma worked_scenario_witness :
  exists lr,
    snd (Monitor.compute_and_log Monitor.CONFIG Samples.scenario Monitor.state0)
      = Monitor.Logged lr /\
    Monitor.lr_action lr = "Strong Sell VOO / Buy VTI".
Proof.
  destruct (worked_scenario 1%Z 2%Z 99%Z Monitor.state0)
    as [scale [lr [pct H]]].
  - reflexivity.
  - exists lr. split; apply H.
Defined.

(** ** Scale factor and spread formulas *)

Section Formulas.

Lemma script_analyse (voo_close vti_close : DataFrame) (init : list Aligned)
  (last : Aligned) :
  combine voo_close vti_close = (init ++ [last])%list ->
  let scale := xdiv (Fin (al_a last)) (Fin (al_b last)) in
  SpreadScript.analyse voo_close vti_close =
    Ok {| SpreadScript.scale_factor := scale;
          SpreadScript.df :=
            map (SpreadScript.add_columns scale) (init ++ [last])%list;
          SpreadScript.latest_spread_pct :=
            SpreadScript.spread_pct (SpreadScript.add_columns scale last);
          SpreadScript.alert :=
            xgt (xabs (SpreadScript.spread_pct
                         (SpreadScript.add_columns scale last)))
                SpreadScript.threshold_pct |}.
Proof.
  intro H. unfold SpreadScript.analyse, SpreadScript.scale_factor_of.
  rewrite H, iloc_last_snoc. cbn [bind]. rewrite map_app. cbn [map].
  rewrite iloc_last_snoc. reflexivity.
Qed.

Lemma script_analyse_inv (voo_close vti_close : DataFrame)
  (rep : SpreadScript.Report) :
  SpreadScript.analyse voo_close vti_close = Ok rep ->
  exists init last,
    combine voo_close vti_close = (init ++ [last])%list /\
    SpreadScript.scale_factor rep = xdiv (Fin (al_a last)) (Fin (al_b last)) /\
    SpreadScript.df rep =
      map (SpreadScript.add_columns (SpreadScript.scale_factor rep))
          (init ++ [last])%list.
Proof.
  intro H.
  destruct (snoc_cases (combine voo_close vti_close)) as [E | [init [last E]]].
  - unfold SpreadScript.analyse, SpreadScript.scale_factor_of in H.
    rewrite E in H. discriminate H.
  - rewrite (script_analyse _ _ _ _ E) in H. inversion H; subst rep; clear H.
    exists init, last. auto.
Qed.

(** C1 holds in the monitor and fails in the script.  In the monitor, a
    cycle whose aligned window is not empty takes the scale factor at the
    first row of that window, which is its earliest row: the quotient of the
    two closes there (an error when the divisor is zero); the rows it
    publishes are scaled by that quotient, and the prior state plays no part
    in it.  The script, run on the two chronological series of the worked
    scenario, takes the quotient 101/49 at the latest aligned row, not the
    quotient 100/50 at the earliest one, and reports no alert. *)
Theorem scale_factor_anchor_by_program :
  (forall cfg w first rest,
      Monitor.window cfg w = first :: rest ->
      Forall (fun r => (al_time first <= al_time r)%Z) (first :: rest) /\
      Monitor.scale_factor_of (Monitor.window cfg w)
        = py_div (al_a first) (al_b first) /\
      (~ al_b first == 0 ->
       Monitor.scale_factor_of (Monitor.window cfg w)
         = Ok (al_a first / al_b first)) /\
      (forall st st' lr,
          Monitor.compute_and_log cfg w st = (st', Monitor.Logged lr) ->
          Forall (fun rc : Monitor.RowDict * string =>
                    Monitor.B_scaled (Monitor.rd_row (fst rc))
                      = Monitor.col_b (Monitor.rd_row (fst rc))
                        * (al_a first / al_b first))
                 (Monitor.df_tail st')) /\
      (forall st1 st2,
          snd (Monitor.compute_and_log cfg w st1)
            = snd (Monitor.compute_and_log cfg w st2))) /\
  (exists rep,
      snd (SpreadScript.script
             (Samples.serve Samples.scenario_a Samples.scenario_b)) = Ok rep /\
      combine Samples.scenario_a Samples.scenario_b
        = [Samples.aligned_1; Samples.aligned_2] /\
      (al_time Samples.aligned_1 < al_time Samples.aligned_2)%Z /\
      SpreadScript.scale_factor rep
        = xdiv (Fin (al_a Samples.aligned_2)) (Fin (al_b Samples.aligned_2)) /\
      xeq (SpreadScript.scale_factor rep) (Fin (101 # 49)) /\
      xeq (xdiv (Fin (al_a Samples.aligned_1)) (Fin (al_b Samples.aligned_1)))
          (Fin 2) /\
      ~ xeq (SpreadScript.scale_factor rep)
            (xdiv (Fin (al_a Samples.aligned_1)) (Fin (al_b Samples.aligned_1))) /\
      SpreadScript.alert rep = false).
Proof.
  split.
  - intros cfg w first rest H.
    split.
    { apply (chronological_head al_time). rewrite <- H. apply window_sorted. }
    split; [rewrite H; reflexivity|].
    split.
    { intro Hnz. rewrite H. unfold Monitor.scale_factor_of.
      cbn [iloc_first bind]. apply py_div_nonzero. exact Hnz. }
    split.
    + intros st st' lr C.
      destruct (compute_and_log_logged cfg w st st' lr C)
        as [first' [rest' [init [Hw [_ [_ [_ Hst]]]]]]].
      rewrite H in Hw. inversion Hw; subst first' rest'; clear Hw.
      rewrite Hst. cbn [Monitor.df_tail]. apply Forall_forall.
      intros rc Hrc. apply in_map_iff in Hrc. destruct Hrc as [r [E Hr]].
      subst rc. rewrite row_with_color_agrees. cbn [fst Monitor.rd_row].
      apply In_tail in Hr. apply in_map_iff in Hr.
      destruct Hr as [al [E _]]. subst r. reflexivity.
    + intros st1 st2. unfold Monitor.compute_and_log.
      destruct (Monitor.cycle cfg w). reflexivity.
  - eexists. split; [vm_compute; reflexivity|].
    split; [vm_compute; reflexivity|].
    split; [reflexivity|].
    split; [reflexivity|].
    split; [vm_compute; reflexivity|].
    split; [vm_compute; reflexivity|].
    split; [vm_compute; discriminate | reflexivity].
Qed.

Lemma scale_factor_anchor_by_program_witness :
  Monitor.scale_factor_of (Monitor.window Monitor.CONFIG Samples.scenario)
    = Ok (100 / 50) /\
  Forall (fun r => (1 <= al_time r)%Z) [Samples.aligned_1; Samples.aligned_2].
Proof.
  destruct (proj1 scale_factor_anchor_by_program Monitor.CONFIG Samples.scenario
              Samples.aligned_1 [Samples.aligned_2]) as [E [_ [S _]]].
  - vm_compute. reflexivity.
  - split; [|exact E]. apply S. vm_compute. discriminate.
Defined.

End Formulas.

Section SpreadFormulas.

Lemma monitor_row_formulas (scale : Q) (al : Aligned) :
  let r := Monitor.add_columns scale al in
  Monitor.B_scaled r = Monitor.col_b r * scale /\
  Monitor.spread r = Monitor.col_a r - Monitor.B_scaled r /\
  Monitor.spread_pct r
    = xmul (xdiv (Fin (Monitor.spread r)) (Fin (Monitor.col_a r))) (Fin 100) /\
  (~ Monitor.col_a r == 0 ->
   Monitor.spread_pct r = Fin (Monitor.spread r / Monitor.col_a r * 100)).
Proof.
  cbn. repeat split. intro H. apply Qis_zero_false in H. rewrite H.
  reflexivity.
Qed.

(** C2, as the code has it.  In both programs the spread of a row is symbol
    A's close minus the scaled close of symbol B.  The monitor takes the
    percentage relative to symbol A's close: spread / price_a * 100.  The
    script takes it relative to the scaled close of symbol B:
    spread / scaled_b * 100. *)
Theorem spread_and_percentage_formulas :
  (forall cfg w st st' lr,
      Monitor.compute_and_log cfg w st = (st', Monitor.Logged lr) ->
      Forall (fun r : Monitor.Row =>
                Monitor.spread r = Monitor.col_a r - Monitor.B_scaled r /\
                Monitor.spread_pct r
                  = xmul (xdiv (Fin (Monitor.spread r)) (Fin (Monitor.col_a r)))
                         (Fin 100) /\
                (~ Monitor.col_a r == 0 ->
                 Monitor.spread_pct r
                   = Fin (Monitor.spread r / Monitor.col_a r * 100)))
             (Monitor.lr_row lr :: map (fun rc => Monitor.rd_row (fst rc))
                                       (Monitor.df_tail st'))) /\
  (forall voo_close vti_close rep,
      SpreadScript.analyse voo_close vti_close = Ok rep ->
      Forall (fun r : SpreadScript.Row =>
                SpreadScript.spread r
                  = xsub (Fin (SpreadScript.VOO r)) (SpreadScript.VTI_scaled r) /\
                SpreadScript.spread_pct r
                  = xmul (xdiv (SpreadScript.spread r) (SpreadScript.VTI_scaled r))
                         (Fin 100) /\
                (forall scaled,
                    SpreadScript.VTI_scaled r = Fin scaled -> ~ scaled == 0 ->
                    SpreadScript.spread_pct r
                      = Fin ((SpreadScript.VOO r - scaled) / scaled * 100)))
             (SpreadScript.df rep)).
Proof.
  split.
  - intros cfg w st st' lr C.
    destruct (compute_and_log_logged cfg w st st' lr C)
      as [first [rest [init [Hw [_ [Hs [_ Hst]]]]]]].
    assert (R : forall r, In r (scaled_rows first rest) ->
                          exists al, r = Monitor.add_columns
                                           (al_a first / al_b first) al).
    { intros r Hr. apply In_tail in Hr. apply in_map_iff in Hr.
      destruct Hr as [al [E _]]. exists al. auto. }
    apply Forall_forall. intros r Hr.
    assert (Hin : In r (scaled_rows first rest)).
    { destruct Hr as [Hr|Hr].
      - subst r. rewrite Hs. apply in_or_app. right. left. reflexivity.
      - rewrite Hst in Hr. cbn [Monitor.df_tail] in Hr. rewrite map_map in Hr.
        apply in_map_iff in Hr. destruct Hr as [r' [E Hr']]. subst r.
        rewrite row_with_color_agrees. exact Hr'. }
    destruct (R r Hin) as [al E]. subst r.
    apply (monitor_row_formulas (al_a first / al_b first) al).
  - intros voo_close vti_close rep H.
    destruct (script_analyse_inv _ _ _ H) as [init [last [_ [_ Hdf]]]].
    rewrite Hdf. apply Forall_forall. intros r Hr. apply in_map_iff in Hr.
    destruct Hr as [al [E _]]. subst r.
    unfold SpreadScript.add_columns.
    cbn [SpreadScript.spread SpreadScript.spread_pct SpreadScript.VOO
         SpreadScript.VTI_scaled].
    split; [reflexivity|]. split; [reflexivity|].
    intros scaled E Hnz. rewrite E. cbn [xsub].
    rewrite (xdiv_finite _ _ Hnz). reflexivity.
Qed.

Lemma spread_and_percentage_formulas_witness :
  Monitor.spread (Monitor.lr_row Samples.scenario_log_row)
    = Monitor.col_a (Monitor.lr_row Samples.scenario_log_row)
      - Monitor.B_scaled (Monitor.lr_row Samples.scenario_log_row) /\
  Forall (fun r : SpreadScript.Row =>
            SpreadScript.spread r
              = xsub (Fin (SpreadScript.VOO r)) (SpreadScript.VTI_scaled r))
         (SpreadScript.df Samples.scenario_report).
Proof.
  split.
  - pose proof (proj1 spread_and_percentage_formulas Monitor.CONFIG
                  Samples.scenario Monitor.state0 Samples.after_scenario
                  Samples.scenario_log_row) as H.
    assert (C : Monitor.compute_and_log Monitor.CONFIG Samples.scenario
                  Monitor.state0
                = (Samples.after_scenario,
                   Monitor.Logged Samples.scenario_log_row))
      by (vm_compute; reflexivity).
    apply H in C. apply Forall_inv in C. apply C.
  - pose proof (proj2 spread_and_percentage_formulas Samples.scenario_a
                  Samples.scenario_b Samples.scenario_report) as H.
    assert (C : SpreadScript.analyse Samples.scenario_a Samples.scenario_b
                = Ok Samples.scenario_report) by (vm_compute; reflexivity).
    apply H in C. eapply Forall_impl; [|exact C].
    intros r Hr. apply Hr.
Defined.

(** C2 fails on the script: at the first row of the worked scenario the
    script's percentage is spread / scaled_b * 100 = -300/101, about
    -2.970, while spread / price_a * 100 is -150/49, about -3.061. *)
Lemma script_percentage_is_not_relative_to_price_a :
  exists rep r sp,
    snd (SpreadScript.script (Samples.serve Samples.scenario_a Samples.scenario_b))
      = Ok rep /\
    hd_error (SpreadScript.df rep) = Some r /\
    SpreadScript.spread r = Fin sp /\
    xeq (SpreadScript.spread_pct r) (Fin (- (300 # 101))) /\
    ~ xeq (SpreadScript.spread_pct r) (Fin (sp / SpreadScript.VOO r * 100)).
Proof.
  eexists. eexists. eexists.
  split; [vm_compute; reflexivity|].
  split; [vm_compute; reflexivity|].
  split; [reflexivity|].
  split; [vm_compute; reflexivity|].
  vm_compute. discriminate.
Qed.

End SpreadFormulas.

(** ** Readers during a cycle *)

Section Readers.

Import Monitor.

(** The stores of a cycle: at most one early store of the last strong time,
    then at most one locked update. *)
Lemma cycle_writes_shape (cfg : Config) (w : World) :
  exists early final,
    fst (cycle cfg w) = (early ++ final)%list /\
    (early = [] \/ early = [SetLastStrongTime (now w)]) /\
    (final = [] \/
     exists lr rows sh,
       final = [LockedUpdate lr rows sh] /\
       fst (determine_action cfg (spread_pct (lr_row lr)))
         = (lr_action lr, lr_color lr)).
Proof.
  destruct (cycle_cases cfg w)
    as [[_ [E|E]] | [first [rest [_ [[_ E] | [_ [latest [_ E]]]]]]]];
    rewrite E; try (exists [], []; simpl; auto; fail).
  unfold log_and_publish.
  destruct (determine_action cfg (spread_pct latest)) as [[action color] strong] eqn:D.
  destruct (csv_writable w); cbn [fst].
  - eexists. eexists. split; [reflexivity|]. split.
    + destruct strong; auto.
    + right. eexists. eexists. eexists. split; [reflexivity|].
      cbn [lr_row lr_action lr_color]. rewrite D. reflexivity.
  - exists (if strong then [SetLastStrongTime (now w)] else []), [].
    rewrite app_nil_r. split; [reflexivity|]. split; [destruct strong|]; auto.
Qed.

(** Whatever a reader finds while a cycle runs, the last row, the table and
    the shares are those of the prior state or those the cycle leaves, never
    a mixture, and the last row stays consistent with the chain. *)
Lemma locked_fields_move_together (cfg : Config) (w : World) (st s : State) :
  In s (observable st (fst (cycle cfg w))) ->
  ((last_row s, df_tail s, shares s) = (last_row st, df_tail st, shares st)
   \/ s = fst (compute_and_log cfg w st)) /\
  (snapshot_consistent cfg st -> snapshot_consistent cfg s).
Proof.
  unfold compute_and_log. destruct (cycle cfg w) as [writes out] eqn:C.
  pose proof (cycle_writes_shape cfg w) as [early [final [E [He Hf]]]].
  rewrite C in E. cbn [fst] in *. subst writes.
  unfold observable, snapshot_consistent.
  destruct He as [He|He], Hf as [Hf | [lr [rows [sh [Hf Hd]]]]]; subst early final;
    simpl; intro H; intuition (subst; simpl; auto).
Qed.

(** C7 does not hold for the last strong time.  From the state a quiet cycle
    left, the scenario cycle stamps the last strong time before it takes the
    lock: a reader in between finds the new stamp next to the old last row
    and table.  When the log file cannot be written the cycle stops there,
    and that state stays. *)
Theorem last_strong_time_is_stored_before_the_lock :
  exists s,
    In s (observable Samples.after_quiet (fst (cycle CONFIG Samples.scenario))) /\
    last_strong_time Samples.after_quiet = None /\
    last_strong_time s = Some 99%Z /\
    last_row s = last_row Samples.after_quiet /\
    df_tail s = df_tail Samples.after_quiet /\
    last_row (fst (compute_and_log CONFIG Samples.scenario Samples.after_quiet))
      = Some Samples.scenario_log_row /\
    last_row s <> Some Samples.scenario_log_row /\
    compute_and_log CONFIG Samples.unwritable_scenario Samples.after_quiet
      = (s, CycleError OSError).
Proof.
  exists (apply_write Samples.after_quiet (SetLastStrongTime 99%Z)).
  split; [vm_compute; right; left; reflexivity|].
  repeat split; try (vm_compute; reflexivity).
  vm_compute. discriminate.
Qed.

End Readers.

(** * Further properties of the monitor *)

(** ** Fetched frames *)

Section FetchedFrames.

Import Monitor.

Lemma insert_by_index_perm (p : PricePoint) (df : DataFrame) :
  Permutation (p :: df) (insert_by_index p df).
Proof.
  induction df as [|p' df IH]; simpl.
  - apply Permutation_refl.
  - destruct (fst p <=? fst p')%Z.
    + apply Permutation_refl.
    + apply perm_trans with (p' :: p :: df).
      * apply perm_swap.
      * apply perm_skip. exact IH.
Qed.

Lemma sort_index_perm (df : DataFrame) : Permutation df (sort_index df).
Proof.
  induction df as [|p df IH]; simpl.
  - apply perm_nil.
  - apply perm_trans with (p :: sort_index df).
    + apply perm_skip. exact IH.
    + apply insert_by_index_perm.
Qed.

(** [fetch_interval_safe] hands back exactly the bars the provider returned,
    none lost, none added, in chronological order, whatever order the
    provider used. *)
Theorem fetch_interval_safe_keeps_and_orders_bars (yf : Provider)
  (symbol interval : string) (df : DataFrame) :
  yf symbol (period_for interval) interval false = Downloaded df ->
  Permutation df (fetch_interval_safe yf symbol interval) /\
  chronological (index_of (fetch_interval_safe yf symbol interval)).
Proof.
  intro H. split; [|apply fetch_interval_safe_sorted].
  unfold fetch_interval_safe. fold (period_for interval). rewrite H.
  destruct df as [|p df]; [apply perm_nil|].
  cbn [empty]. apply sort_index_perm.
Qed.

Lemma fetch_interval_safe_keeps_and_orders_bars_witness :
  fetch_interval_safe
    (fun _ _ _ _ => Downloaded [(3%Z, 7); (1%Z, 5); (2%Z, 6)]) "VOO" "5m"
    = [(1%Z, 5); (2%Z, 6); (3%Z, 7)] /\
  Permutation [(3%Z, 7); (1%Z, 5); (2%Z, 6)]
    (fetch_interval_safe
       (fun _ _ _ _ => Downloaded [(3%Z, 7); (1%Z, 5); (2%Z, 6)]) "VOO" "5m").
Proof.
  split; [reflexivity|].
  apply (fetch_interval_safe_keeps_and_orders_bars
           (fun _ _ _ _ => Downloaded [(3%Z, 7); (1%Z, 5); (2%Z, 6)])
           "VOO" "5m" [(3%Z, 7); (1%Z, 5); (2%Z, 6)]).
  reflexivity.
Defined.

Lemma try_intervals_empty (yf : Provider) (symbol : string) (ivs : list string) :
  snd (try_intervals yf symbol ivs) = [] <->
  Forall (fun iv => fetch_interval_safe yf symbol iv = []) ivs.
Proof.
  induction ivs as [|iv ivs IH]; simpl.
  - split; auto.
  - destruct (fetch_interval_safe yf symbol iv) as [|p df] eqn:E; simpl.
    + destruct (try_intervals yf symbol ivs) as [asked found]. simpl in *.
      rewrite IH. split; intro H.
      * constructor; assumption.
      * inversion H; assumption.
    + split; intro H; [discriminate|]. inversion H; subst. congruence.
Qed.

End FetchedFrames.

(** ** Outcomes of a cycle *)

Section Outcomes.

Import Monitor.

Variable cfg : Config.

Lemma fetch_a_empty (w : World) :
  fetch_a cfg w = [] <->
  Forall (fun iv => fetch_interval_safe (yf w) (SYMBOL_A cfg) iv = [])
         (INTERVAL cfg :: FALLBACK_INTERVALS cfg).
Proof. apply try_intervals_empty. Qed.

Lemma fetch_b_empty (w : World) :
  fetch_b cfg w = [] <->
  Forall (fun iv => fetch_interval_safe (yf w) (SYMBOL_B cfg) iv = [])
         (INTERVAL cfg :: FALLBACK_INTERVALS cfg).
Proof. apply try_intervals_empty. Qed.

Lemma log_and_publish_outcome (w : World) (rows : list Row) (latest : Row) :
  logged (snd (log_and_publish cfg w rows latest)) = csv_writable w /\
  (csv_writable w = false ->
   snd (log_and_publish cfg w rows latest) = CycleError OSError).
Proof.
  unfold log_and_publish.
  destruct (determine_action cfg (spread_pct latest)) as [[action color] strong].
  destruct (csv_writable w); simpl; split; auto; discriminate.
Qed.

Lemma log_and_publish_never_skips (w : World) (rows : list Row) (latest : Row) :
  snd (log_and_publish cfg w rows latest) <> MissingData /\
  snd (log_and_publish cfg w rows latest) <> NoAlignedData /\
  snd (log_and_publish cfg w rows latest) <> CycleError ZeroDivisionError.
Proof.
  destruct (log_and_publish_outcome w rows latest) as [L F].
  destruct (csv_writable w).
  - destruct (snd (log_and_publish cfg w rows latest)); try discriminate L.
    repeat split; discriminate.
  - rewrite (F eq_refl). repeat split; discriminate.
Qed.

(** A cycle reports missing data exactly when, for one of the two symbols,
    every configured interval came back empty or failed; it reports
    unaligned data exactly when both symbols have data and no timestamp is
    common to them; it fails on a zero divisor exactly when symbol B's close
    at the first common timestamp is zero. *)
Theorem cycle_outcome_says_what_happened (w : World) (st : State) :
  (snd (compute_and_log cfg w st) = MissingData <->
   Forall (fun iv => fetch_interval_safe (yf w) (SYMBOL_A cfg) iv = [])
          (INTERVAL cfg :: FALLBACK_INTERVALS cfg)
   \/
   Forall (fun iv => fetch_interval_safe (yf w) (SYMBOL_B cfg) iv = [])
          (INTERVAL cfg :: FALLBACK_INTERVALS cfg))
  /\
  (snd (compute_and_log cfg w st) = NoAlignedData <->
   fetch_a cfg w <> [] /\ fetch_b cfg w <> [] /\
   forall t, ~ (In t (index_of (fetch_a cfg w)) /\
                In t (index_of (fetch_b cfg w))))
  /\
  (snd (compute_and_log cfg w st) = CycleError ZeroDivisionError <->
   exists first rest, window cfg w = first :: rest /\ al_b first == 0).
Proof.
  rewrite <- fetch_a_empty, <- fetch_b_empty.
  assert (O : snd (compute_and_log cfg w st) = snd (cycle cfg w)).
  { unfold compute_and_log. destruct (cycle cfg w). reflexivity. }
  rewrite O. clear O.
  destruct (fetch_a cfg w) as [|pa da] eqn:Ea.
  { rewrite (cycle_missing cfg w (or_introl Ea)). cbn [snd].
    unfold window. rewrite Ea. unfold Close. rewrite combine_nil_l.
    split; [tauto|]. split.
    - split; [discriminate | intros [H _]; congruence].
    - split; [discriminate | intros [f [r [H _]]]; discriminate]. }
  destruct (fetch_b cfg w) as [|pb db] eqn:Eb.
  { rewrite (cycle_missing cfg w (or_intror Eb)). cbn [snd].
    unfold window. rewrite Eb. unfold Close. rewrite combine_nil_r.
    split; [tauto|]. split.
    - split; [discriminate | intros [_ [H _]]; congruence].
    - split; [discriminate | intros [f [r [H _]]]; discriminate]. }
  assert (D : (forall t, ~ (In t (index_of (pa :: da)) /\
                            In t (index_of (pb :: db)))) <->
              window cfg w = []).
  { unfold window, Close. rewrite Ea, Eb. split.
    - apply combine_disjoint.
    - intros Hw t Ht. apply combine_times in Ht. rewrite Hw in Ht. exact Ht. }
  assert (M : ~ (pa :: da = [] \/ pb :: db = []))
    by (intros [H|H]; discriminate).
  destruct (cycle_cases cfg w)
    as [[Hw _] | [first [rest [Hw [[Hz E] | [Hnz [latest [_ E]]]]]]]].
  - assert (E : cycle cfg w = ([], NoAlignedData)).
    { unfold cycle. rewrite Ea, Eb, Hw. reflexivity. }
    rewrite E, Hw. cbn [snd]. split; [|split].
    + split; [discriminate | tauto].
    + split; [|reflexivity]. intros _. split; [discriminate|].
      split; [discriminate|]. apply D. exact Hw.
    + split; [discriminate | intros [f [r [H _]]]; discriminate].
  - rewrite E, Hw. cbn [snd]. split; [|split].
    + split; [discriminate | tauto].
    + split; [discriminate|]. intros [_ [_ H]]. apply D in H. congruence.
    + split; [|reflexivity]. intros _. exists first, rest. auto.
  - rewrite E, Hw.
    destruct (log_and_publish_never_skips w (scaled_rows first rest) latest)
      as [N1 [N2 N3]].
    split; [|split].
    + split; [contradiction | tauto].
    + split; [contradiction|]. intros [_ [_ H]]. apply D in H. congruence.
    + split; [contradiction|]. intros [f [r [H Hz]]].
      inversion H; subst. contradiction.
Qed.

End Outcomes.

(** ** Sorted lists, cut and reversed *)

Section SortedLists.

Context {A : Type} (R : A -> A -> Prop).

Lemma StronglySorted_skipn (n : nat) (l : list A) :
  StronglySorted R l -> StronglySorted R (skipn n l).
Proof.
  revert l. induction n as [|n IH]; intros l H; [exact H|].
  destruct l as [|a l]; [exact H|]. simpl. apply IH.
  apply StronglySorted_inv in H. apply H.
Qed.

Lemma StronglySorted_firstn (n : nat) (l : list A) :
  StronglySorted R l -> StronglySorted R (firstn n l).
Proof.
  revert l. induction n as [|n IH]; intros l H; [constructor|].
  destruct l as [|a l]; [constructor|]. simpl.
  apply StronglySorted_inv in H. destruct H as [Hs Hall].
  constructor; [apply IH; exact Hs|].
  rewrite Forall_forall in *. intros x Hx. apply Hall.
  rewrite <- (firstn_skipn n l). apply in_or_app. left. exact Hx.
Qed.

Lemma StronglySorted_snoc (l : list A) (a : A) :
  StronglySorted R l -> Forall (fun x => R x a) l ->
  StronglySorted R (l ++ [a])%list.
Proof.
  induction l as [|b l IH]; simpl; intros Hs Hall.
  - repeat constructor.
  - apply StronglySorted_inv in Hs. destruct Hs as [Hs Hb].
    inversion Hall; subst.
    constructor; [apply IH; assumption|].
    apply Forall_app. split; [exact Hb | repeat constructor; assumption].
Qed.

End SortedLists.

Lemma chronological_rev (ts : list Timestamp) :
  chronological ts -> reverse_chronological (rev ts).
Proof.
  unfold chronological, reverse_chronological.
  induction ts as [|t ts IH]; simpl; intro H; [constructor|].
  apply StronglySorted_inv in H. destruct H as [Hs Hall].
  apply StronglySorted_snoc; [apply IH; exact Hs|].
  apply Forall_forall. intros x Hx. apply in_rev in Hx.
  rewrite Forall_forall in Hall. apply Z.le_ge. apply Hall. exact Hx.
Qed.

Lemma tail_map {A B : Type} (f : A -> B) (n : nat) (l : list A) :
  tail n (map f l) = map f (tail n l).
Proof.
  unfold tail. rewrite length_map. apply skipn_map.
Qed.

Lemma tail_length {A : Type} (n : nat) (l : list A) :
  List.length (tail n l) = Nat.min n (List.length l).
Proof.
  unfold tail. rewrite length_skipn. lia.
Qed.

(** ** What a logging cycle publishes *)

Section RecentWindow.

Import Monitor.

Variable cfg : Config.

Lemma table_times_rows (rows : list Row) :
  table_times (map (row_with_color cfg) rows) = map Datetime rows.
Proof.
  unfold table_times. rewrite map_map. apply map_ext. intro r.
  rewrite row_with_color_agrees. reflexivity.
Qed.

Lemma scaled_rows_times (first : Aligned) (rest : list Aligned) :
  map Datetime (scaled_rows first rest)
    = tail 200 (map al_time (first :: rest)).
Proof.
  unfold scaled_rows. rewrite <- tail_map, map_map. reflexivity.
Qed.

(** The table a logging cycle publishes covers exactly the last 200
    timestamps of the aligned window (all of them when there are fewer), in
    chronological order: between 1 and 200 rows. *)
Theorem published_table_is_the_recent_window (w : World) (st st' : State)
  (lr : LogRow) :
  compute_and_log cfg w st = (st', Logged lr) ->
  table_times (df_tail st') = tail 200 (map al_time (window cfg w)) /\
  List.length (df_tail st') = Nat.min 200 (List.length (window cfg w)) /\
  (1 <= List.length (df_tail st') <= 200)%nat /\
  chronological (table_times (df_tail st')).
Proof.
  intro H.
  destruct (compute_and_log_logged cfg w st st' lr H)
    as [first [rest [init [Hw [_ [_ [_ Hst]]]]]]].
  assert (T : table_times (df_tail st') = tail 200 (map al_time (window cfg w))).
  { rewrite Hst. cbn [df_tail]. rewrite table_times_rows, scaled_rows_times, Hw.
    reflexivity. }
  assert (L : List.length (df_tail st')
              = Nat.min 200 (List.length (window cfg w))).
  { rewrite <- (length_map (fun rc => Datetime (rd_row (fst rc))) (df_tail st')).
    fold (table_times (df_tail st')). rewrite T, tail_length, length_map.
    reflexivity. }
  split; [exact T|]. split; [exact L|]. split.
  - rewrite L, Hw. simpl List.length. lia.
  - rewrite T. unfold tail, chronological. apply StronglySorted_skipn.
    apply window_sorted.
Qed.

(** The page served after a logging cycle lists at most 50 rows, the newest
    ones of the published table, newest first. *)
Theorem page_lists_newest_rows_first (w : World) (st st' : State) (lr : LogRow)
  (clock : Timestamp) :
  compute_and_log cfg w st = (st', Logged lr) ->
  exists page,
    index clock st' = Some page /\
    List.length (page_rows page) = Nat.min 50 (List.length (df_tail st')) /\
    table_times (page_rows page) = firstn 50 (rev (table_times (df_tail st'))) /\
    reverse_chronological (table_times (page_rows page)).
Proof.
  intro H.
  destruct (published_table_is_the_recent_window w st st' lr H) as [_ [_ [_ S]]].
  destruct (compute_and_log_logged cfg w st st' lr H)
    as [first [rest [init [_ [_ [_ [_ Hst]]]]]]].
  assert (Hl : last_row st' = Some lr) by (rewrite Hst; reflexivity).
  unfold index. rewrite Hl. eexists. split; [reflexivity|].
  cbn [page_rows].
  assert (T : table_times (firstn 50 (rev (df_tail st')))
              = firstn 50 (rev (table_times (df_tail st')))).
  { unfold table_times. rewrite <- firstn_map, map_rev. reflexivity. }
  split; [rewrite length_firstn, length_rev; reflexivity|].
  split; [exact T|].
  rewrite T. apply StronglySorted_firstn. apply chronological_rev. exact S.
Qed.

End RecentWindow.

Lemma published_table_is_the_recent_window_witness :
  table_times (Monitor.df_tail Samples.after_scenario) = [1%Z; 2%Z] /\
  List.length (Monitor.df_tail Samples.after_scenario) = 2%nat.
Proof.
  destruct (published_table_is_the_recent_window Monitor.CONFIG
              Samples.scenario Monitor.state0 Samples.after_scenario
              Samples.scenario_log_row) as [T [L _]].
  - vm_compute. reflexivity.
  - split; [rewrite T | rewrite L]; reflexivity.
Defined.

Lemma page_lists_newest_rows_first_witness :
  exists page,
    Monitor.index 100%Z Samples.after_scenario = Some page /\
    table_times (Monitor.page_rows page) = [2%Z; 1%Z].
Proof.
  destruct (page_lists_newest_rows_first Monitor.CONFIG Samples.scenario
              Monitor.state0 Samples.after_scenario Samples.scenario_log_row
              100%Z) as [page [I [_ [T _]]]].
  - vm_compute. reflexivity.
  - exists page. split; [exact I|]. rewrite T. reflexivity.
Defined.

(** ** The state across cycles *)

Section AcrossCycles.

Import Monitor.

Variable cfg : Config.

(** A cycle either logs, with its locked update as the last store, or does
    not log, with at most the early store of the last strong time. *)
Lemma cycle_shape (w : World) :
  (exists early lr rows sh,
      cycle cfg w = ((early ++ [LockedUpdate lr rows sh])%list, Logged lr) /\
      (early = [] \/ early = [SetLastStrongTime (now w)]))
  \/
  (exists early out,
      cycle cfg w = (early, out) /\ logged out = false /\
      (early = [] \/ early = [SetLastStrongTime (now w)])).
Proof.
  destruct (cycle_cases cfg w)
    as [[_ [E|E]] | [first [rest [_ [[_ E] | [_ [latest [_ E]]]]]]]];
    rewrite E; try (right; eexists []; eexists; repeat split; auto; fail).
  unfold log_and_publish.
  destruct (determine_action cfg (spread_pct latest)) as [[action color] strong].
  destruct (csv_writable w).
  - left. eexists. eexists. eexists. eexists. split; [reflexivity|].
    destruct strong; auto.
  - right. eexists. eexists. split; [reflexivity|]. split; [reflexivity|].
    destruct strong; auto.
Qed.

Lemma compute_and_log_last_row (w : World) (st : State) :
  last_row (fst (compute_and_log cfg w st)) =
  match snd (compute_and_log cfg w st) with
  | Logged lr => Some lr
  | _ => last_row st
  end.
Proof.
  unfold compute_and_log.
  destruct (cycle_shape w)
    as [[early [lr [rows [sh [E He]]]]] | [early [out [E [Hl He]]]]];
    rewrite E; cbn [fst snd].
  - destruct He; subst early; reflexivity.
  - destruct out; try discriminate Hl; destruct He; subst early; reflexivity.
Qed.

Lemma compute_and_log_market_msg (w : World) (st : State) :
  market_msg (fst (compute_and_log cfg w st)) = market_msg st.
Proof.
  unfold compute_and_log.
  destruct (cycle_shape w)
    as [[early [lr [rows [sh [E He]]]]] | [early [out [E [Hl He]]]]];
    rewrite E; destruct He; subst early; reflexivity.
Qed.

Lemma run_scheduler_last_row (ticks : list World) (st : State) :
  last_row (fst (run_scheduler cfg ticks st)) = None <->
  last_row st = None /\
  Forall (fun out => logged out = false) (snd (run_scheduler cfg ticks st)).
Proof.
  revert st. induction ticks as [|w ticks IH]; intro st; simpl.
  - split; [auto | tauto].
  - pose proof (compute_and_log_last_row w st) as L.
    destruct (compute_and_log cfg w st) as [st1 out]. cbn [fst snd] in L.
    specialize (IH st1). destruct (run_scheduler cfg ticks st1) as [st2 outs].
    cbn [fst snd] in *. rewrite IH, L. split.
    + intros [H1 H2]. destruct out; try discriminate H1;
        (split; [exact H1 | constructor; [reflexivity | exact H2]]).
    + intros [H1 H2]. inversion H2; subst.
      destruct out; try discriminate; auto.
Qed.

(** From the initial state, the view answers "No data yet" exactly as long
    as no cycle has appended a log row: skipped and failed cycles do not
    count, and one logging cycle ends it for good. *)
Theorem view_has_no_data_until_a_cycle_logs (ticks : list World)
  (clock : Timestamp) :
  index clock (fst (run_scheduler cfg ticks state0)) = None <->
  Forall (fun out => logged out = false) (snd (run_scheduler cfg ticks state0)).
Proof.
  assert (I : forall st, index clock st = None <-> last_row st = None).
  { intro st. unfold index. destruct (last_row st); split; congruence. }
  rewrite I, run_scheduler_last_row. cbn [last_row state0]. tauto.
Qed.

(** No cycle ever stores a market message: whatever the scheduler has run,
    the page shows the message the state started with, the empty string
    from the initial state. *)
Theorem market_message_is_never_set (ticks : list World) (st : State)
  (clock : Timestamp) :
  market_msg (fst (run_scheduler cfg ticks st)) = market_msg st /\
  forall page,
    index clock (fst (run_scheduler cfg ticks state0)) = Some page ->
    page_market_msg page = "".
Proof.
  assert (M : forall ticks' st',
             market_msg (fst (run_scheduler cfg ticks' st')) = market_msg st').
  { induction ticks' as [|w ticks' IH]; intro st'; simpl; [reflexivity|].
    pose proof (compute_and_log_market_msg w st') as E.
    destruct (compute_and_log cfg w st') as [st1 out]. cbn [fst] in E.
    specialize (IH st1). destruct (run_scheduler cfg ticks' st1). cbn [fst] in *.
    congruence. }
  split; [apply M|].
  intros page H. unfold index in H.
  destruct (last_row (fst (run_scheduler cfg ticks state0))); [|discriminate].
  inversion H; subst page. cbn [page_market_msg]. rewrite M. reflexivity.
Qed.

(** Running a cycle again on the same data and clock changes nothing: the
    second run ends the same way and leaves the state the first one left. *)
Theorem replaying_a_cycle_changes_nothing (w : World) (st : State) :
  compute_and_log cfg w (fst (compute_and_log cfg w st))
    = compute_and_log cfg w st.
Proof.
  unfold compute_and_log.
  destruct (cycle_shape w)
    as [[early [lr [rows [sh [E He]]]]] | [early [out [E [Hl He]]]]];
    rewrite E; destruct He; subst early; reflexivity.
Qed.

(** When the log file cannot be appended to, a cycle that got as far as its
    latest row publishes nothing: the last row, the table and the shares
    stay, and the only trace is the last strong time, already stamped with
    the poll time if the latest row is in a Strong band. *)
Theorem failed_append_leaves_only_the_strong_stamp (w : World) (st : State)
  (first : Aligned) (rest : list Aligned) :
  window cfg w = first :: rest -> ~ al_b first == 0 ->
  csv_writable w = false ->
  exists latest,
    iloc_last (scaled_rows first rest) = Ok latest /\
    compute_and_log cfg w st =
      ({| last_row := last_row st;
          last_strong_time :=
            if snd (determine_action cfg (spread_pct latest))
            then Some (now w) else last_strong_time st;
          df_tail := df_tail st;
          shares := shares st;
          market_msg := market_msg st |},
       CycleError OSError).
Proof.
  intros Hw Hnz Hcsv.
  destruct (cycle_runs cfg w first rest Hw Hnz) as [latest [Hl E]].
  exists latest. split; [exact Hl|].
  unfold compute_and_log. rewrite E. unfold log_and_publish.
  destruct (determine_action cfg (spread_pct latest)) as [[action color] strong].
  rewrite Hcsv. destruct strong; destruct st; reflexivity.
Qed.

End AcrossCycles.

Lemma market_message_is_never_set_witness :
  exists page,
    Monitor.index 100%Z
      (fst (Monitor.run_scheduler Monitor.CONFIG [Samples.scenario]
              Monitor.state0)) = Some page /\
    Monitor.page_market_msg page = "".
Proof.
  destruct (Monitor.index 100%Z
              (fst (Monitor.run_scheduler Monitor.CONFIG [Samples.scenario]
                      Monitor.state0)))
    as [page|] eqn:E.
  - exists page. split; [reflexivity|].
    apply (proj2 (market_message_is_never_set Monitor.CONFIG
                    [Samples.scenario] Monitor.state0 100%Z) page E).
  - vm_compute in E. discriminate E.
Defined.

Lemma failed_append_leaves_only_the_strong_stamp_witness :
  Monitor.last_row
    (fst (Monitor.compute_and_log Monitor.CONFIG Samples.unwritable_scenario
            Samples.after_quiet))
    = Monitor.last_row Samples.after_quiet /\
  Monitor.last_strong_time
    (fst (Monitor.compute_and_log Monitor.CONFIG Samples.unwritable_scenario
            Samples.after_quiet))
    = Some 99%Z.
Proof.
  destruct (failed_append_leaves_only_the_strong_stamp Monitor.CONFIG
              Samples.unwritable_scenario Samples.after_quiet
              Samples.aligned_1 [Samples.aligned_2])
    as [latest [L E]].
  - vm_compute. reflexivity.
  - vm_compute. discriminate.
  - reflexivity.
  - rewrite E. cbn [fst Monitor.last_row Monitor.last_strong_time].
    split; [reflexivity|].
    vm_compute in L. inversion L; subst latest. vm_compute. reflexivity.
Defined.

(** ** The bands *)

Section Bands.

Import Monitor.

Variable cfg : Config.

Lemma determine_action_tier (pct : xq) :
  determine_action cfg pct = render cfg (tier_of cfg pct).
Proof.
  unfold determine_action, tier_of.
  destruct (xge pct (THRESHOLD_PCT cfg)); [reflexivity|].
  destruct (xge pct (PRE_WARNING_PCT cfg)); [reflexivity|].
  destruct (xle pct (- THRESHOLD_PCT cfg)); [reflexivity|].
  destruct (xle pct (- PRE_WARNING_PCT cfg)); reflexivity.
Qed.

Lemma determine_action_tier_inv (pct : xq) (tier : ActionTier) :
  determine_action cfg pct = render cfg tier -> tier = tier_of cfg pct.
Proof.
  rewrite determine_action_tier. intro H. symmetry.
  apply (render_injective cfg). exact H.
Qed.

Ltac split_bands :=
  repeat match goal with
         | |- context [Qle_bool ?x ?y] =>
             let E := fresh "E" in destruct (Qle_bool x y) eqn:E
         end;
  repeat match goal with
         | H : Qle_bool _ _ = true |- _ => apply Qle_bool_iff in H
         | H : Qle_bool _ _ = false |- _ => apply Qle_bool_false in H
         end.

Lemma tier_of_opp (q : Q) :
  0 < PRE_WARNING_PCT cfg -> 0 < THRESHOLD_PCT cfg ->
  tier_of cfg (Fin (- q)) = mirror (tier_of cfg (Fin q)).
Proof.
  intros Hpre Hthr. unfold tier_of, xge, xle.
  split_bands; try reflexivity; exfalso; lra.
Qed.

Lemma tier_of_monotone (q1 q2 : Q) :
  0 < PRE_WARNING_PCT cfg -> PRE_WARNING_PCT cfg < THRESHOLD_PCT cfg ->
  q1 <= q2 ->
  (tier_rank (tier_of cfg (Fin q1)) <= tier_rank (tier_of cfg (Fin q2)))%Z.
Proof.
  intros Hpre Hthr Hle. unfold tier_of, xge, xle.
  split_bands; simpl; try lia; exfalso; lra.
Qed.

(** The rule is symmetric: with positive thresholds, the opposite spread
    percentage gets the same band with Sell and Buy exchanged. *)
Theorem opposite_spread_gets_the_mirrored_action (q : Q) (tier : ActionTier) :
  0 < PRE_WARNING_PCT cfg -> 0 < THRESHOLD_PCT cfg ->
  determine_action cfg (Fin q) = render cfg tier ->
  determine_action cfg (Fin (- q)) = render cfg (mirror tier).
Proof.
  intros Hpre Hthr H. apply determine_action_tier_inv in H. subst tier.
  rewrite determine_action_tier, (tier_of_opp q Hpre Hthr). reflexivity.
Qed.

(** The bands are ordered: with [0 < pre-warning < strong], a larger spread
    percentage never gets a band closer to Strong Buy. *)
Theorem larger_spread_never_moves_toward_buy (q1 q2 : Q) (t1 t2 : ActionTier) :
  0 < PRE_WARNING_PCT cfg -> PRE_WARNING_PCT cfg < THRESHOLD_PCT cfg ->
  q1 <= q2 ->
  determine_action cfg (Fin q1) = render cfg t1 ->
  determine_action cfg (Fin q2) = render cfg t2 ->
  (tier_rank t1 <= tier_rank t2)%Z.
Proof.
  intros Hpre Hthr Hle H1 H2.
  apply determine_action_tier_inv in H1, H2. subst t1 t2.
  apply tier_of_monotone; assumption.
Qed.

End Bands.

Lemma opposite_spread_gets_the_mirrored_action_witness :
  Monitor.determine_action Monitor.CONFIG (Fin (- (12 # 100)))
    = Monitor.render Monitor.CONFIG Monitor.ApproachingBuy.
Proof.
  apply (opposite_spread_gets_the_mirrored_action Monitor.CONFIG (12 # 100)
           Monitor.ApproachingSell); reflexivity.
Defined.

Lemma larger_spread_never_moves_toward_buy_witness :
  (tier_rank Monitor.ApproachingBuy <= tier_rank Monitor.StrongSell)%Z.
Proof.
  apply (larger_spread_never_moves_toward_buy Monitor.CONFIG
           (- (12 # 100)) (20 # 100)); try reflexivity.
  vm_compute. discriminate.
Defined.

(** ** Rows with special prices *)

Section SpecialRows.

Import Monitor.





End SpecialRows.

(** ** The page *)

Section ThePage.

Import Monitor.

Lemma run_scheduler_consistent (cfg : Config) (ticks : list World) (st : State) :
  snapshot_consistent cfg st ->
  snapshot_consistent cfg (fst (run_scheduler cfg ticks st)).
Proof.
  revert st. induction ticks as [|w ticks IH]; intros st H; [exact H|].
  cbn [run_scheduler].
  destruct (compute_and_log cfg w st) as [st1 out] eqn:C.
  specialize (IH st1). destruct (run_scheduler cfg ticks st1) as [st2 outs].
  cbn [fst] in *. apply IH. clear IH.
  pose proof (compute_and_log_last_row cfg w st) as L. rewrite C in L.
  cbn [fst snd] in L. unfold snapshot_consistent in *. rewrite L.
  destruct out as [| | e | lr]; try exact H.
  destruct (compute_and_log_logged cfg w st st1 lr C)
    as [first [rest [init [_ [_ [_ [D _]]]]]]].
  exact D.
Qed.

(** The page never shows the countdown.  The template prints it only when
    the headline action is exactly "Strong Buy" or "Strong Sell", while the
    headline passed to it is "None" or a logged action, and every logged
    action that mentions Strong also names the two symbols: whatever the
    configuration and whatever the scheduler has run from the initial state,
    the guard is false. *)
Theorem countdown_is_never_shown (cfg : Config) (ticks : list World)
  (clock : Timestamp) (page : Page) :
  index clock (fst (run_scheduler cfg ticks state0)) = Some page ->
  shows_countdown page = false.
Proof.
  intro H.
  pose proof (run_scheduler_consistent cfg ticks state0 I) as K.
  unfold snapshot_consistent in K. unfold index in H.
  destruct (last_row (fst (run_scheduler cfg ticks state0))) as [lr|];
    [|discriminate].
  inversion H; subst page; clear H.
  unfold shows_countdown. cbn [top_action].
  rewrite determine_action_tier in K.
  assert (A : lr_action lr
              = fst (fst (render cfg (tier_of cfg (spread_pct (lr_row lr))))))
    by (rewrite K; reflexivity).
  rewrite A.
  destruct (tier_of cfg (spread_pct (lr_row lr))); cbn [render fst];
    match goal with
    | |- context [if ?c then _ else _] => destruct c
    end; reflexivity.
Qed.

Lemma countdown_is_never_shown_witness :
  exists page,
    index (99 + 30)%Z (fst (run_scheduler CONFIG [Samples.scenario] state0))
      = Some page /\
    top_action page = "Strong Sell VOO / Buy VTI" /\
    countdown page = Some (0%Z, 30%Z) /\
    shows_countdown page = false.
Proof.
  destruct (index (99 + 30)%Z (fst (run_scheduler CONFIG [Samples.scenario] state0)))
    as [page|] eqn:E.
  - exists page. split; [reflexivity|].
    pose proof (countdown_is_never_shown CONFIG [Samples.scenario] (99 + 30)%Z
                  page E) as S.
    vm_compute in E. inversion E; subst page.
    split; [reflexivity|]. split; [reflexivity|]. exact S.
  - vm_compute in E. discriminate E.
Defined.

(** Under the shipped configuration the headline of the page repeats the
    logged action and colour only for a Strong row; for every other row it
    reads "None" in yellow. *)
Theorem headline_shows_strong_actions_only (row : Row) (st : State)
  (clock : Timestamp) :
  last_row st =
    Some {| lr_row := row;
            lr_action := fst (fst (determine_action CONFIG (spread_pct row)));
            lr_color := snd (fst (determine_action CONFIG (spread_pct row))) |} ->
  exists page,
    index clock st = Some page /\
    (top_action page, top_color page) =
      if snd (determine_action CONFIG (spread_pct row))
      then fst (determine_action CONFIG (spread_pct row))
      else ("None", "yellow").
Proof.
  intro Hl. unfold index. rewrite Hl. eexists. split; [reflexivity|].
  cbn [top_action top_color lr_action lr_color].
  rewrite determine_action_tier.
  destruct (tier_of CONFIG (spread_pct row)); reflexivity.
Qed.

Lemma headline_shows_strong_actions_only_witness :
  exists page,
    index 100%Z Samples.after_quiet = Some page /\
    (top_action page, top_color page) = ("None", "yellow").
Proof.
  destruct (headline_shows_strong_actions_only
              {| Datetime := 2%Z; col_a := 100; col_b := 50;
                 B_scaled := 5000 # 50; spread := 0 # 50;
                 spread_pct := Fin (0 # 5000) |}
              Samples.after_quiet 100%Z) as [page [I T]].
  - vm_compute. reflexivity.
  - exists page. split; [exact I|]. rewrite T. reflexivity.
Defined.

End ThePage.

(** * Further properties of the spread script *)

Section ScriptRuns.

Import SpreadScript.

Lemma download_close_series_no_data (yf : Provider) (symbol period interval : string) :
  Forall (fun c => answer yf symbol c = Downloaded [])
         (script_calls period interval) ->
  download_close_series yf symbol period interval
    = (script_calls period interval, Raise ValueError).
Proof.
  intro H. unfold script_calls in *.
  inversion H as [|c1 l1 H1 H']; subst. inversion H' as [|c2 l2 H2 H'']; subst.
  inversion H'' as [|c3 l3 H3 _]; subst.
  unfold answer in H1, H2, H3. cbn [fst snd] in H1, H2, H3.
  unfold download_close_series, download.
  rewrite H1. cbn [tbind empty]. rewrite H2. cbn [tbind empty].
  rewrite H3. reflexivity.
Qed.

(** The script stops at the first failure.  With no data for the first
    symbol at any of the three granularities it raises [ValueError] after
    those three calls and never asks for the second symbol; with data for
    both symbols but no common timestamp it raises [IndexError] at the scale
    factor; otherwise it reports what the two close series give. *)
Theorem script_stops_at_the_first_failure (yf : Provider) :
  (Forall (fun c => answer yf symbol1 c = Downloaded [])
          (script_calls lookback primary_interval) ->
   script yf = (script_calls lookback primary_interval, Raise ValueError)) /\
  (forall calls1 calls2 voo_close vti_close,
      download_close_series yf symbol1 lookback primary_interval
        = (calls1, Ok voo_close) ->
      download_close_series yf symbol2 lookback primary_interval
        = (calls2, Ok vti_close) ->
      script yf = ((calls1 ++ calls2)%list, analyse voo_close vti_close) /\
      ((forall t, ~ (In t (index_of voo_close) /\ In t (index_of vti_close))) ->
       script yf = ((calls1 ++ calls2)%list, Raise IndexError))).
Proof.
  split.
  - intro H. unfold script.
    rewrite (download_close_series_no_data yf symbol1 _ _ H). reflexivity.
  - intros calls1 calls2 voo_close vti_close H1 H2.
    assert (S : script yf = ((calls1 ++ calls2)%list, analyse voo_close vti_close)).
    { unfold script. rewrite H1. cbn [tbind]. rewrite H2. cbn [tbind lift].
      rewrite app_nil_r. reflexivity. }
    split; [exact S|]. intro D. rewrite S.
    unfold analyse, scale_factor_of. rewrite (combine_disjoint _ _ D).
    reflexivity.
Qed.

Lemma script_stops_at_the_first_failure_witness :
  script Samples.no_data
    = ([("7d", "1m"); ("7d", "5m"); ("30d", "1d")], Raise ValueError) /\
  script (Samples.serve [(1%Z, 100)] [(2%Z, 50)])
    = ([("7d", "1m"); ("7d", "1m")], Raise IndexError).
Proof.
  split.
  - apply (proj1 (script_stops_at_the_first_failure Samples.no_data)).
    repeat constructor.
  - apply (proj2 (script_stops_at_the_first_failure
                    (Samples.serve [(1%Z, 100)] [(2%Z, 50)]))
             [("7d", "1m")] [("7d", "1m")] [(1%Z, 100)] [(2%Z, 50)]);
      try reflexivity.
    intros t [[Ha|[]] [Hb|[]]]. simpl in Ha, Hb. congruence.
Defined.



End ScriptRuns.

(** * The quote client *)

Section QuoteClient.

Import TosApi.

Variable cf : Settings.

Lemma falsy_token (tok : string) : falsy (Some tok) = false <-> tok <> "".
Proof.
  unfold falsy. apply String.eqb_neq.
Qed.

Lemma Qle_bool_true_false (x y : Q) : Qle_bool x y = false <-> y < x.
Proof.
  split.
  - apply Qle_bool_false.
  - intro H. destruct (Qle_bool x y) eqn:E; [|reflexivity].
    apply Qle_bool_iff in E. lra.
Qed.

(** While the client holds a non-empty token and the clock has not passed
    its expiry, [get] sends one request only, the GET with that token as
    bearer, asks for no new token and leaves the client as it is; it returns
    the parsed body exactly when the reply is a 200 with a JSON body. *)
Theorem valid_token_is_reused (net : Net) (c : Client) (tok endpoint : string)
  (params : list (string * string)) :
  access_token c = Some tok -> tok <> "" ->
  clock_check net <= expiration c ->
  fst (get cf net c endpoint params)
    = ([Get (TOS_BASE_URL cf ++ "/" ++ endpoint) ("Bearer " ++ tok) params], c) /\
  (forall data,
      snd (get cf net c endpoint params) = Done data <->
      exists body,
        get_reply net (TOS_BASE_URL cf ++ "/" ++ endpoint) ("Bearer " ++ tok) params
          = Some (mkResponse 200%Z body (Some data))).
Proof.
  intros Ht Hne Hclock. unfold get, _ensure_token.
  rewrite Ht, (proj2 (falsy_token tok) Hne).
  rewrite (proj2 (Qle_bool_iff _ _) Hclock). cbn [orb negb app].
  rewrite Ht. cbn [shown].
  destruct (get_reply net _ _ params) as [[status body js]|] eqn:R.
  - cbn [status_code json text].
    destruct (Z.eqb_spec status 200) as [E|N]; cbn [negb].
    + subst status. destruct js as [data'|]; cbn [fst snd].
      * split; [reflexivity|]. intro data. split.
        -- intro H. inversion H; subst. exists body. reflexivity.
        -- intros [body' H]. inversion H; subst. reflexivity.
      * split; [reflexivity|]. intro data. split; [discriminate|].
        intros [body' H]. discriminate H.
    + cbn [fst snd]. split; [reflexivity|]. intro data.
      split; [discriminate|]. intros [body' H]. inversion H. congruence.
  - cbn [fst snd]. split; [reflexivity|]. intro data.
    split; [discriminate|]. intros [body' H]. discriminate H.
Qed.

(** Whether [_ensure_token] goes for a new token. *)
Lemma needs_refresh (net : Net) (c : Client) :
  falsy (access_token c) = true \/ expiration c < clock_check net ->
  _ensure_token cf net c = refresh_access_token cf net c.
Proof.
  intro H. unfold _ensure_token. destruct H as [H|H].
  - rewrite H. reflexivity.
  - rewrite (proj2 (Qle_bool_true_false _ _) H). rewrite orb_true_r.
    reflexivity.
Qed.

(** Without a usable token, or past its expiry, [get] first posts the
    refresh request.  On a 200 reply carrying both keys the client keeps the
    new token with expiry [now + expires_in - 30], the GET goes out with the
    new token, and later calls reuse it up to that expiry and ask again
    after it. *)
Theorem expired_token_is_refreshed_with_a_margin (net : Net) (c : Client)
  (tok endpoint body : string) (expires_in : Q)
  (params : list (string * string)) :
  falsy (access_token c) = true \/ expiration c < clock_check net ->
  post_reply net token_url (payload cf)
    = Some (mkResponse 200%Z body
              (Some {| tj_access_token := Some tok;
                       tj_expires_in := Some expires_in |})) ->
  let c' := {| access_token := Some tok;
               expiration := clock_refresh net + expires_in - 30 |} in
  fst (get cf net c endpoint params)
    = ([Post token_url (payload cf);
        Get (TOS_BASE_URL cf ++ "/" ++ endpoint) ("Bearer " ++ tok) params], c') /\
  (forall later endpoint' params',
      tok <> "" ->
      (clock_check later <= clock_refresh net + expires_in - 30 ->
       fst (fst (get cf later c' endpoint' params'))
         = [Get (TOS_BASE_URL cf ++ "/" ++ endpoint') ("Bearer " ++ tok) params']) /\
      (clock_refresh net + expires_in - 30 < clock_check later ->
       hd_error (fst (fst (get cf later c' endpoint' params')))
         = Some (Post token_url (payload cf)))).
Proof.
  intros Hneed Hpost c'. split.
  - unfold get. rewrite (needs_refresh net c Hneed).
    unfold refresh_access_token. rewrite Hpost.
    cbn [status_code json text tj_access_token tj_expires_in Z.eqb negb
         Pos.eqb app shown access_token].
    fold c'.
    destruct (get_reply net _ _ params) as [[status body' js]|].
    + cbn [status_code json]. destruct (negb (status =? 200)%Z); [reflexivity|].
      destruct js; reflexivity.
    + reflexivity.
  - intros later endpoint' params' Hne. split; intro H.
    + assert (V : access_token c' = Some tok) by reflexivity.
      destruct (valid_token_is_reused later c' tok endpoint' params' V Hne H)
        as [E _].
      rewrite E. reflexivity.
    + unfold get. rewrite (needs_refresh later c') by (right; exact H).
      unfold refresh_access_token.
      destruct (post_reply later token_url (payload cf)) as [[status b js]|];
        [|reflexivity].
      cbn [status_code json text].
      destruct (negb (status =? 200)%Z); [reflexivity|].
      destruct js as [[[tk|] [ex|]]|]; cbn [tj_access_token tj_expires_in];
        try reflexivity.
      destruct (get_reply later _ _ params') as [[st' b' js']|];
        [|reflexivity].
      cbn [status_code json]. destruct (negb (st' =? 200)%Z); [reflexivity|].
      destruct js'; reflexivity.
Qed.

(** When the refresh is refused (a reply other than 200) or cannot be sent,
    [get] raises without sending the GET and the client is unchanged;
    [get_voo_vti_quotes] turns that into [None]; and as the clock only moves
    on, the next call starts with the refresh request again. *)
Theorem refused_refresh_is_retried (net later : Net) (c : Client)
  (endpoint : string) (params : list (string * string)) :
  falsy (access_token c) = true \/ expiration c < clock_check net ->
  (post_reply net token_url (payload cf) = None \/
   exists response,
     post_reply net token_url (payload cf) = Some response /\
     status_code response <> 200%Z) ->
  clock_check net <= clock_check later ->
  (exists f,
      get cf net c endpoint params = ([Post token_url (payload cf)], c, Failed f)) /\
  get_voo_vti_quotes cf net c = ([Post token_url (payload cf)], c, None) /\
  hd_error (fst (fst (get cf later c endpoint params)))
    = Some (Post token_url (payload cf)).
Proof.
  intros Hneed Hpost Hclock.
  assert (G : forall endpoint' params',
             exists f, get cf net c endpoint' params'
                       = ([Post token_url (payload cf)], c, Failed f)).
  { intros endpoint' params'. unfold get. rewrite (needs_refresh net c Hneed).
    unfold refresh_access_token. destruct Hpost as [H | [response [H Hs]]];
      rewrite H.
    - eexists. reflexivity.
    - apply Z.eqb_neq in Hs. rewrite Hs. eexists. reflexivity. }
  split; [apply G|]. split.
  - unfold get_voo_vti_quotes. destruct (G "markets/quotes" [("symbols", "VOO,VTI")])
      as [f E]. rewrite E. reflexivity.
  - assert (Hneed' : falsy (access_token c) = true
                     \/ expiration c < clock_check later).
    { destruct Hneed as [H|H]; [left; exact H | right; lra]. }
    unfold get. rewrite (needs_refresh later c Hneed').
    unfold refresh_access_token.
    destruct (post_reply later token_url (payload cf)) as [[status b js]|];
      [|reflexivity].
    cbn [status_code json text].
    destruct (negb (status =? 200)%Z); [reflexivity|].
    destruct js as [[[tk|] [ex|]]|]; cbn [tj_access_token tj_expires_in];
      try reflexivity.
    destruct (get_reply later _ _ params) as [[st' b' js']|]; [|reflexivity].
    cbn [status_code json]. destruct (negb (st' =? 200)%Z); [reflexivity|].
    destruct js'; reflexivity.
Qed.

(** A 200 token reply that carries [access_token] but no [expires_in] leaves
    the client half updated: the new token is stored, the old expiry stays,
    and the call raises [KeyError] before any GET. *)
Theorem token_reply_without_expiry_half_updates (net : Net) (c : Client)
  (tok endpoint body : string) (params : list (string * string)) :
  falsy (access_token c) = true \/ expiration c < clock_check net ->
  post_reply net token_url (payload cf)
    = Some (mkResponse 200%Z body
              (Some {| tj_access_token := Some tok; tj_expires_in := None |})) ->
  get cf net c endpoint params
    = ([Post token_url (payload cf)],
       {| access_token := Some tok; expiration := expiration c |},
       Failed (KeyError "expires_in")).
Proof.
  intros Hneed Hpost. unfold get. rewrite (needs_refresh net c Hneed).
  unfold refresh_access_token. rewrite Hpost. reflexivity.
Qed.

End QuoteClient.

Lemma valid_token_is_reused_witness :
  fst (TosApi.get MoreSamples.settings MoreSamples.granting_later
         MoreSamples.granted "markets/quotes" [("symbols", "VOO,VTI")])
    = ([TosApi.Get "https://api.schwabapi.com/trader/v1/markets/quotes"
          "Bearer T1" [("symbols", "VOO,VTI")]],
       MoreSamples.granted).
Proof.
  apply (valid_token_is_reused MoreSamples.settings MoreSamples.granting_later
           MoreSamples.granted "T1" "markets/quotes" [("symbols", "VOO,VTI")]).
  - reflexivity.
  - discriminate.
  - vm_compute. discriminate.
Defined.

Lemma expired_token_is_refreshed_with_a_margin_witness :
  fst (TosApi.get MoreSamples.settings MoreSamples.granting TosApi.init
         "markets/quotes" [])
    = ([TosApi.Post TosApi.token_url (TosApi.payload MoreSamples.settings);
        TosApi.Get "https://api.schwabapi.com/trader/v1/markets/quotes"
          "Bearer T1" []],
       {| TosApi.access_token := Some "T1";
          TosApi.expiration := 1001 + 1800 - 30 |}).
Proof.
  apply (expired_token_is_refreshed_with_a_margin MoreSamples.settings
           MoreSamples.granting TosApi.init "T1" "markets/quotes" "ok" 1800 []).
  - left. reflexivity.
  - reflexivity.
Defined.

Lemma refused_refresh_is_retried_witness :
  TosApi.get_voo_vti_quotes MoreSamples.settings MoreSamples.refusing TosApi.init
    = ([TosApi.Post TosApi.token_url (TosApi.payload MoreSamples.settings)],
       TosApi.init, None).
Proof.
  apply (refused_refresh_is_retried MoreSamples.settings MoreSamples.refusing
           MoreSamples.granting_later TosApi.init "markets/quotes" []).
  - left. reflexivity.
  - right. eexists. split; [reflexivity | discriminate].
  - vm_compute. discriminate.
Defined.

Lemma token_reply_without_expiry_half_updates_witness :
  TosApi.get MoreSamples.settings MoreSamples.forgetful TosApi.init
    "markets/quotes" []
    = ([TosApi.Post TosApi.token_url (TosApi.payload MoreSamples.settings)],
       {| TosApi.access_token := Some "T2"; TosApi.expiration := 0 |},
       TosApi.Failed (TosApi.KeyError "expires_in")).
Proof.
  apply (token_reply_without_expiry_half_updates MoreSamples.settings
           MoreSamples.forgetful TosApi.init "T2" "markets/quotes" "ok" []).
  - left. reflexivity.
  - reflexivity.
Defined.

(** * The updater *)

Section Updater.

Import AutoUpdate.

Variables sep timestamp : string.




(** A run touches two paths only: every file other than the monitor and the
    backup of this run is what it was. *)
Theorem updater_touches_two_paths_only (reply : option (Z * string))
  (fs : FileSystem) (p : string) :
  p <> LOCAL_FILE -> p <> backup_path sep timestamp ->
  files (fst (fst (main sep timestamp reply fs))) p = files fs p.
Proof.
  intros H1 H2. apply String.eqb_neq in H1, H2.
  unfold main, backup_local_file.
  assert (F : forall q, files (if negb (dirs fs BACKUP_DIR)
                               then makedirs fs BACKUP_DIR else fs) q
                        = files fs q).
  { intro q. destruct (negb (dirs fs BACKUP_DIR)); reflexivity. }
  set (fs1 := if negb (dirs fs BACKUP_DIR) then _ else fs) in *.
  destruct (files fs1 LOCAL_FILE) as [content|]; [|apply F].
  unfold download_latest_file.
  destruct reply as [[status latest]|]; [destruct (status =? 200)%Z|];
    cbn [fst]; unfold write; cbn [files]; rewrite ?H1, ?H2; apply F.
Qed.

End Updater.



Lemma updater_touches_two_paths_only_witness :
  AutoUpdate.files
    (fst (fst (AutoUpdate.main "/" "20240102_030405"
                 (Some (200%Z, "new monitor")) MoreSamples.disk))) "notes.txt"
    = Some "notes".
Proof.
  rewrite (updater_touches_two_paths_only "/" "20240102_030405"
             (Some (200%Z, "new monitor")) MoreSamples.disk "notes.txt").
  - reflexivity.
  - discriminate.
  - discriminate.
Defined.

(** * The holdings file *)

Section HoldingsLookup.

Import Holdings.

Variable upper : string -> string.

Lemma matched_app (rows1 rows2 : list (option string * Q)) (sym : string) :
  matched upper (rows1 ++ rows2)%list sym
    = (matched upper rows1 sym ++ matched upper rows2 sym)%list.
Proof.
  unfold matched. rewrite filter_app, map_app. reflexivity.
Qed.

Lemma matched_none (rows : list (option string * Q)) (sym : string) :
  (forall s q, In (Some s, q) rows -> upper s <> upper sym) ->
  matched upper rows sym = [].
Proof.
  intro H. unfold matched. induction rows as [|[[s|] q] rows IH]; simpl.
  - reflexivity.
  - assert (N : upper s <> upper sym) by (apply (H s q); left; reflexivity).
    apply String.eqb_neq in N. rewrite N. apply IH.
    intros s' q' Hin. apply (H s' q'). right. exact Hin.
  - apply IH. intros s' q' Hin. apply (H s' q'). right. exact Hin.
Qed.

(** The position of a symbol is looked up without regard to letter case, on
    both sides: the first row whose symbol upper-cases to the same text
    gives the shares, rows with an empty symbol cell are passed over, and a
    symbol with no such row, like a missing or unreadable file, gives 0. *)
Theorem holdings_lookup_takes_the_first_match (cfg : Monitor.Config) :
  (forall rows sym,
      (forall s q, In (Some s, q) rows -> upper s <> upper sym) ->
      shares_of upper rows sym = 0) /\
  (forall before s q after sym,
      upper s = upper sym ->
      (forall s' q', In (Some s', q') before -> upper s' <> upper sym) ->
      shares_of upper (before ++ (Some s, q) :: after)%list sym = q) /\
  (forall rows sym sym',
      upper sym = upper sym' ->
      shares_of upper rows sym = shares_of upper rows sym') /\
  read_vanguard_csv upper cfg NoFile = (0, 0) /\
  read_vanguard_csv upper cfg Unreadable = (0, 0).
Proof.
  split; [|split; [|split; [|split; reflexivity]]].
  - intros rows sym H. unfold shares_of. rewrite (matched_none rows sym H).
    reflexivity.
  - intros before s q after sym E H. unfold shares_of.
    rewrite matched_app, (matched_none before sym H).
    unfold matched. simpl. rewrite E, String.eqb_refl. reflexivity.
  - intros rows sym sym' E. unfold shares_of, matched. rewrite E. reflexivity.
Qed.

End HoldingsLookup.

Lemma holdings_lookup_takes_the_first_match_witness :
  Holdings.shares_of MoreSamples.upper MoreSamples.holdings "VOO" = 12 /\
  Holdings.shares_of MoreSamples.upper MoreSamples.holdings "VTI" = 0.
Proof.
  destruct (holdings_lookup_takes_the_first_match MoreSamples.upper
              Monitor.CONFIG) as [H0 [H1 _]].
  split.
  - apply (H1 [(Some "BND", 7); (None, 1)] "voo" 12 [(Some "VOO", 99)] "VOO").
    + reflexivity.
    + intros s' q' [H|[H|[]]]; inversion H; subst. discriminate.
  - apply (H0 MoreSamples.holdings "VTI").
    intros s q [H|[H|[H|[H|[]]]]]; inversion H; subst; discriminate.
Defined.
